(** * Benchmark scripts of delta: [performance/hyperfine-commits.py] (the
    Runner) and [performance/transform-benchmark-data.py] (the Transformer).

    Both scripts are embedded as pure functions.  Python values that come out
    of [json.load] are the inductive type [json]; a Python [dict] read from
    JSON keeps its insertion order, so a JSON object is an association list
    with the dict operations written out; [commit2message], which is only ever
    looked up, is a [gmap].  A Python exception that nobody catches is the
    [Err] case of [result].  [re.match] is a small backtracking matcher over
    the constructs that the label pattern uses. *)

From Stdlib Require Import SpecFloat PrimFloat FloatOps Ascii String.
From stdpp Require Import gmap strings list sorting pretty.

#[local] Set Warnings "-register-all,-inexact-float".

Local Open Scope string_scope.

(** ** Uncaught Python exceptions *)

Inductive exn : Type :=
  | KeyError
  | TypeError
  | AttributeError
  | CalledProcessError (returncode : Z).

Inductive result (A : Type) : Type :=
  | Ok (a : A)
  | Err (e : exn).
Arguments Ok {A} a.
Arguments Err {A} e.

(** Statements run in sequence: the first exception ends the run. *)
Global Instance result_bind : MBind result := λ A B f m,
  match m with
  | Ok a => f a
  | Err e => Err e
  end.

Global Instance result_fmap : FMap result := λ A B f m,
  match m with
  | Ok a => Ok (f a)
  | Err e => Err e
  end.

Definition is_Err {A} (m : result A) : Prop := ∃ e, m = Err e.

(** ** Strings *)

(** A string is the sequence of its bytes.  A character outside ASCII is a
    run of bytes above 127, which are in and out of the classes of the
    label pattern as the character is, so the groups are cut at the same
    places. *)

Fixpoint all_chars (p : ascii → bool) (s : string) : bool :=
  match s with
  | "" => true
  | String c s' => p c && all_chars p s'
  end.

(** The part of [s] that lies before its suffix [s']. *)
Definition consumed (s s' : string) : string :=
  substring 0 (String.length s - String.length s') s.

(** ** Regular expressions: the fragment of [re] that the script uses *)

Module Re.

Inductive regex : Type :=
  | Chr (c : ascii)               (* a literal character *)
  | Plus (p : ascii → bool)       (* [class]+, greedy *)
  | Star (p : ascii → bool)       (* [class]* and .*, greedy *)
  | Opt (r : regex)               (* r?, greedy *)
  | Group (n : nat) (r : regex)   (* the n-th capturing group *)
  | Seq (r1 r2 : regex).

(** Greedy repetition of a character class: the longest run is tried
    first, and every failure of the rest of the pattern gives back one
    character. *)
Fixpoint star {A} (p : ascii → bool) (s : string)
    (k : string → option A) : option A :=
  match s with
  | String c s' =>
      if p c then
        match star p s' k with
        | Some x => Some x
        | None => k s
        end
      else k s
  | "" => k s
  end.

Definition plus {A} (p : ascii → bool) (s : string)
    (k : string → option A) : option A :=
  match s with
  | String c s' => if p c then star p s' k else None
  | "" => None
  end.

(** [exec r s caps k]: match [r] at the front of [s], then continue with
    [k] on what is left; [caps] holds the groups captured so far. *)
Fixpoint exec {A} (r : regex) (s : string) (caps : gmap nat string)
    (k : string → gmap nat string → option A) : option A :=
  match r with
  | Chr c =>
      match s with
      | String c' s' => if decide (c' = c) then k s' caps else None
      | "" => None
      end
  | Plus p => plus p s (λ s', k s' caps)
  | Star p => star p s (λ s', k s' caps)
  | Opt r =>
      match exec r s caps k with
      | Some x => Some x
      | None => k s caps
      end
  | Group n r =>
      exec r s caps (λ s' caps', k s' (<[n := consumed s s']> caps'))
  | Seq r1 r2 => exec r1 s caps (λ s' caps', exec r2 s' caps' k)
  end.

(** [re.match(r, s)]: anchored at the start of [s], not at its end.  The
    match object is the map of its groups; [None] is no match. *)
Definition re_match (r : regex) (s : string) : option (gmap nat string) :=
  exec r s ∅ (λ _ caps, Some caps).

End Re.

Import Re.

(** ** Character classes of the label pattern *)

Definition code (c : ascii) : N := N_of_ascii c.

Definition not_slash (c : ascii) : bool := negb (code c =? 47)%N.
Definition digit (c : ascii) : bool := (48 <=? code c)%N && (code c <=? 57)%N.
Definition hex (c : ascii) : bool :=
  digit c || (97 <=? code c)%N && (code c <=? 102)%N.
Definition dot (c : ascii) : bool := negb (code c =? 10)%N.

(** ["([^/]+/)?([0-9]+)-([0-9a-f]+) .*"], in two parts: the directory group,
    which is optional, and what has to follow it. *)
Definition label_dir : regex :=
  Group 1 (Seq (Plus not_slash) (Chr "/")).

Definition label_tail : regex :=
  Seq (Group 2 (Plus digit))
 (Seq (Chr "-")
 (Seq (Group 3 (Plus hex))
 (Seq (Chr " ")
      (Star dot)))).

Definition label_pattern : regex := Seq (Opt label_dir) label_tail.

(** [m.groups()] of a match object with three groups. *)
Definition groups (m : gmap nat string)
    : option string * option string * option string :=
  (m !! 1, m !! 2, m !! 3).

(** ** JSON values, as [json.load] returns them *)

Inductive json : Type :=
  | JNull
  | JBool (b : bool)
  | JInt (z : Z)
  | JFloat (f : spec_float)
  | JStr (s : string)
  | JArr (l : list json)
  | JObj (d : list (string * json)).

(** A Python [float] is a binary64 number.  The script only carries the
    numbers of the report from the input to the output, so they are kept as
    the sign, mantissa and exponent that [json.load] computed.  These are
    the values of the decimal literals of the examples. *)
Definition f0_25 : spec_float := Eval vm_compute in Prim2SF 0.25.
Definition f0_5 : spec_float := Eval vm_compute in Prim2SF 0.5.
Definition f0_75 : spec_float := Eval vm_compute in Prim2SF 0.75.
Definition f1_0 : spec_float := Eval vm_compute in Prim2SF 1.0.
Definition f1_1 : spec_float := Eval vm_compute in Prim2SF 1.1.
Definition f1_2 : spec_float := Eval vm_compute in Prim2SF 1.2.
Definition f1_5 : spec_float := Eval vm_compute in Prim2SF 1.5.

(** Python's [dict] on string keys: insertion-ordered; assigning to a key
    that is present keeps its place, a new key goes last.  A key occurs
    once in a dict; [get] and [set] look at its first occurrence and [del]
    removes the key altogether, so that the three behave as a map does on
    any list. *)
Module Dict.

Abbreviation dict := (list (string * json)).

Fixpoint get (k : string) (d : dict) : option json :=
  match d with
  | [] => None
  | (k', v) :: d' => if decide (k' = k) then Some v else get k d'
  end.

Fixpoint set (k : string) (v : json) (d : dict) : dict :=
  match d with
  | [] => [(k, v)]
  | (k', v') :: d' =>
      if decide (k' = k) then (k, v) :: d' else (k', v') :: set k v d'
  end.

Definition del (k : string) (d : dict) : dict :=
  filter (λ kv, kv.1 ≠ k) d.

Definition keys (d : dict) : list string := d.*1.

End Dict.

(** The characters of a string, each as a string of length one. *)
Fixpoint chars (s : string) : list string :=
  match s with
  | "" => []
  | String c s' => String c "" :: chars s'
  end.

(** [v[k]] for a string [k]. *)
Definition getitem (v : json) (k : string) : result json :=
  match v with
  | JObj d =>
      match Dict.get k d with
      | Some x => Ok x
      | None => Err KeyError
      end
  | _ => Err TypeError
  end.

(** [v[k] = x] for a string [k]. *)
Definition setitem (v : json) (k : string) (x : json) : result json :=
  match v with
  | JObj d => Ok (JObj (Dict.set k x d))
  | _ => Err TypeError
  end.

(** [del v[k]] for a string [k]. *)
Definition delitem (v : json) (k : string) : result json :=
  match v with
  | JObj d =>
      match Dict.get k d with
      | Some _ => Ok (JObj (Dict.del k d))
      | None => Err KeyError
      end
  | _ => Err TypeError
  end.

(** [v.copy()]: values are immutable here, so a shallow copy is the value. *)
Definition copy (v : json) : result json :=
  match v with
  | JObj _ | JArr _ => Ok v
  | _ => Err AttributeError
  end.

(** What [for x in v] runs through. *)
Definition iter (v : json) : result (list json) :=
  match v with
  | JArr l => Ok l
  | JStr s => Ok (JStr <$> chars s)
  | JObj d => Ok (JStr <$> Dict.keys d)
  | _ => Err TypeError
  end.

(** [f"{x}"] for a group of a match object, which is a string or [None]. *)
Definition format (x : option string) : string :=
  match x with
  | Some s => s
  | None => "None"
  end.

(** ** The Transformer: [transform-benchmark-data.py] *)

(** A commit as [repo.walk] yields it: [commit.id.hex], [commit.message]. *)
Record commit : Type := Commit { id_hex : string; message : string }.

(** [{commit.id.hex: commit.message for commit in repo.walk(...)}] *)
Definition commit2message (walk : list commit) : gmap string string :=
  foldl (λ m c, <[id_hex c := message c]> m) ∅ walk.

(** [commit2message.get(commit, "")] *)
Definition get_message (c2m : gmap string string) (commit : option string)
    : string :=
  match commit with
  | Some c => default "" (c2m !! c)
  | None => ""
  end.

(** [re.match("([^/]+/)?([0-9]+)-([0-9a-f]+) .*", command).groups()] *)
Definition match_groups (command : json)
    : result (option string * option string * option string) :=
  match command with
  | JStr s =>
      match re_match label_pattern s with
      | Some m => Ok (groups m)
      | None => Err AttributeError
      end
  | _ => Err TypeError
  end.

(** The body of the inner loop, up to [output.append]. *)
Definition output_row (c2m : gmap string string) (row : json)
    (num commit : option string) (time : json) : result json :=
  r ← copy row;
  r ← setitem r "commit" (JStr (format num +:+ "-" +:+ format commit));
  r ← setitem r "message" (JStr (get_message c2m commit));
  r ← delitem r "times";
  setitem r "time" time.

(** [for time in row["times"]: ...; output.append(output_row)] *)
Fixpoint for_times (c2m : gmap string string) (row : json)
    (num commit : option string) (times : list json) (output : list json)
    : result (list json) :=
  match times with
  | [] => Ok output
  | time :: times' =>
      r ← output_row c2m row num commit time;
      for_times c2m row num commit times' (output ++ [r])
  end.

(** The body of the outer loop. *)
Definition row_body (c2m : gmap string string) (row : json)
    (output : list json) : result (list json) :=
  command ← getitem row "command";
  g ← match_groups command;
  let '(dir, num, commit) := g in
  times ← getitem row "times";
  times ← iter times;
  for_times c2m row num commit times output.

(** [for row in input["results"]: ...] *)
Fixpoint for_rows (c2m : gmap string string) (rows : list json)
    (output : list json) : result (list json) :=
  match rows with
  | [] => Ok output
  | row :: rows' =>
      output' ← row_body c2m row output;
      for_rows c2m rows' output'
  end.

(** The whole script: the array handed to [json.dump], or the exception that
    ends the process before anything is written. *)
Definition transform (walk : list commit) (input : json)
    : result (list json) :=
  let c2m := commit2message walk in
  results ← getitem input "results";
  rows ← iter results;
  for_rows c2m rows [].

(** ** The Runner: [hyperfine-commits.py] *)

(** The namespace that [parser.parse_args()] returns. *)
Record args : Type := Args {
  input_file : string;
  executables_dir : string;
  output_file : string
}.

Definition runs : Z := 5%Z.

(** [sorted] on a list of strings. *)
Definition sorted (l : list string) : list string := merge_sort String.le l.

(** The command that benchmarks one entry of the directory. *)
Definition command_of (a : args) (executable : string) : string :=
  executables_dir a +:+ "/" +:+ executable +:+ " < " +:+ input_file a
    +:+ " > /dev/null".

(** [hyperfine_args], once extended; [listdir] is what
    [os.listdir(args.executables_dir)] returned. *)
Definition hyperfine_args (a : args) (listdir : list string) : list string :=
  [ "hyperfine";
    "--runs";
    pretty runs;
    "--export-json";
    output_file a;
    "--ignore-failure" ]
  ++ (command_of a <$> sorted listdir).

(** [subprocess.check_call]: the tool is run on the argument list that it
    is given, which is added to the invocations made so far, and a return
    code other than 0 is raised. *)
Definition check_call (tool : list string → Z) (argv : list string)
    (calls : list (list string)) : result unit * list (list string) :=
  let returncode := tool argv in
  (if decide (returncode = 0%Z) then Ok ()
   else Err (CalledProcessError returncode),
   (calls ++ [argv])%list).

(** The script, from the parsed arguments on: how it ends, and the
    invocations of external tools that it made. *)
Definition runner (tool : list string → Z) (a : args) (listdir : list string)
    : result unit * list (list string) :=
  check_call tool (hyperfine_args a listdir) [].

(** The exit status of the interpreter: 0 when the script runs to its end,
    1 when an exception is not caught. *)
Definition exit_status {A} (r : result A) : Z :=
  match r with
  | Ok _ => 0%Z
  | Err _ => 1%Z
  end.

(** ** Vocabulary of the properties *)

(** The longest prefix of [s] whose characters are all in the class [p], and
    what follows it. *)
Fixpoint take_while (p : ascii → bool) (s : string) : string :=
  match s with
  | String c s' => if p c then String c (take_while p s') else ""
  | "" => ""
  end.

Fixpoint drop_while (p : ascii → bool) (s : string) : string :=
  match s with
  | String c s' => if p c then drop_while p s' else s
  | "" => ""
  end.

(** A continuation that cannot go on from a character of the class [p]:
    a repetition of [p] followed by it has one way to match at most. *)
Definition rejects {A} (p : ascii → bool) (k : string → option A) : Prop :=
  ∀ x s, p x = true → k (String x s) = None.

(** The label pattern read from left to right without backtracking: the
    directory up to the first slash, then the digits, the dash, the
    hexadecimal digits and the space. *)
Definition scan_dir (s : string) : option (string * string) :=
  match drop_while not_slash s with
  | String c s' =>
      if decide (c = "/"%char) then
        if decide (take_while not_slash s = "") then None
        else Some (take_while not_slash s +:+ "/", s')
      else None
  | "" => None
  end.

Definition scan_tail (s : string) : option (string * string) :=
  match drop_while digit s with
  | String c s1 =>
      if decide (c = "-"%char) then
        match drop_while hex s1 with
        | String c' _ =>
            if decide (c' = " "%char) then
              if decide (take_while digit s = "") then None
              else if decide (take_while hex s1 = "") then None
              else Some (take_while digit s, take_while hex s1)
            else None
        | "" => None
        end
      else None
  | "" => None
  end.

Definition scan (s : string)
    : option (option string * option string * option string) :=
  let with_dir :=
    match scan_dir s with
    | Some (dir, s') =>
        match scan_tail s' with
        | Some (num, rev) => Some (Some dir, Some num, Some rev)
        | None => None
        end
    | None => None
    end in
  match with_dir with
  | Some g => Some g
  | None =>
      match scan_tail s with
      | Some (num, rev) => Some (None, Some num, Some rev)
      | None => None
      end
  end.

(** The entries of a report and the samples of an entry, where the report
    has the shape of the tool's schema. *)
Definition results (input : json) : list json :=
  match getitem input "results" with
  | Ok (JArr rows) => rows
  | _ => []
  end.

Definition times (row : json) : list json :=
  match getitem row "times" with
  | Ok (JArr ts) => ts
  | _ => []
  end.

(** An entry of the tool's schema whose command carries a label. *)
Definition well_formed_row (row : json) : bool :=
  match getitem row "command", getitem row "times" with
  | Ok (JStr command), Ok (JArr _) =>
      bool_decide (is_Some (re_match label_pattern command))
  | _, _ => false
  end.

(** A report of the tool's schema: an object whose [results] is an array of
    such entries. *)
Definition well_formed (input : json) : bool :=
  match getitem input "results" with
  | Ok (JArr rows) => forallb well_formed_row rows
  | _ => false
  end.

(** The records that one entry contributes to the output. *)
Definition records_of (c2m : gmap string string) (row : json)
    : result (list json) :=
  row_body c2m row [].

(** * Properties *)

(** ** Strings *)

Section strings.
Implicit Types (a b c : string) (p : ascii → bool).

Lemma str_app_nil_l a : "" +:+ a = a.
Proof. reflexivity. Qed.

Lemma str_app_cons x a b : String x a +:+ b = String x (a +:+ b).
Proof. reflexivity. Qed.

Lemma str_app_nil_r a : a +:+ "" = a.
Proof. induction a as [|x a IH]; [done|]. by rewrite str_app_cons, IH. Qed.

Lemma str_app_assoc a b c : (a +:+ b) +:+ c = a +:+ b +:+ c.
Proof. induction a as [|x a IH]; [done|]. by rewrite !str_app_cons, IH. Qed.

Lemma str_length_app a b :
  String.length (a +:+ b) = String.length a + String.length b.
Proof. induction a as [|x a IH]; [done|]. rewrite str_app_cons. simpl. lia. Qed.

Lemma str_app_inj_r a b c : a +:+ c = b +:+ c → a = b.
Proof.
  revert b. induction a as [|x a IH]; intros [|y b] H; [done|..].
  - apply (f_equal String.length) in H.
    rewrite str_app_nil_l, str_app_cons in H. simpl in H. rewrite str_length_app in H. lia.
  - apply (f_equal String.length) in H.
    rewrite str_app_nil_l, str_app_cons in H. simpl in H. rewrite str_length_app in H. lia.
  - rewrite !str_app_cons in H. injection H as -> H. f_equal. by apply IH.
Qed.

Lemma consumed_app a b : consumed (a +:+ b) b = a.
Proof.
  unfold consumed. rewrite str_length_app.
  replace (String.length a + String.length b - String.length b)
    with (String.length a) by lia.
  induction a as [|x a IH]; [by destruct b|].
  rewrite str_app_cons. simpl. by rewrite IH.
Qed.

Lemma all_chars_app p a b :
  all_chars p (a +:+ b) = all_chars p a && all_chars p b.
Proof.
  induction a as [|x a IH]; [done|].
  rewrite str_app_cons. simpl. rewrite IH. by rewrite andb_assoc.
Qed.

Lemma take_drop_while p a : take_while p a +:+ drop_while p a = a.
Proof.
  induction a as [|x a IH]; [done|]. simpl.
  destruct (p x); [|done]. by rewrite str_app_cons, IH.
Qed.

Lemma all_chars_take_while p a : all_chars p (take_while p a) = true.
Proof.
  induction a as [|x a IH]; [done|]. simpl.
  destruct (p x) eqn:Hx; [|done]. simpl. by rewrite Hx.
Qed.

(** A run of the class followed by something outside it is split where
    the run ends. *)
Lemma take_while_app p a b :
  all_chars p a = true → take_while p b = "" →
  take_while p (a +:+ b) = a ∧ drop_while p (a +:+ b) = b.
Proof.
  intros Ha Hb. induction a as [|x a IH].
  - rewrite str_app_nil_l. split; [done|].
    destruct b as [|y b]; [done|]. simpl in *. by destruct (p y).
  - simpl in Ha. apply andb_true_iff in Ha as [Hx Ha].
    rewrite str_app_cons. simpl. rewrite Hx.
    destruct (IH Ha) as [-> ->]. done.
Qed.
End strings.

(** ** The matcher on the label pattern *)

Section repetition.
Context {A : Type}.
Implicit Types (p : ascii → bool) (k : string → option A).

Lemma star_det p k s : rejects p k → star p s k = k (drop_while p s).
Proof.
  intros Hk. induction s as [|x s IH]; [done|]. simpl.
  destruct (p x) eqn:Hx; [|done].
  rewrite IH. destruct (k (drop_while p s)); [done|]. by apply Hk.
Qed.

Lemma plus_det p k s :
  rejects p k →
  plus p s k =
    if decide (take_while p s = "") then None else k (drop_while p s).
Proof.
  intros Hk. destruct s as [|x s]; [done|]. simpl.
  destruct (p x) eqn:Hx; [|done].
  rewrite decide_False by done. by apply star_det.
Qed.

Lemma star_const p s (x : A) : star p s (λ _, Some x) = Some x.
Proof.
  induction s as [|c s IH]; [done|]. simpl. rewrite IH. by destruct (p c).
Qed.
End repetition.

Lemma consumed_drop_while p s :
  consumed s (drop_while p s) = take_while p s.
Proof.
  pose proof (consumed_app (take_while p s) (drop_while p s)) as H.
  by rewrite take_drop_while in H.
Qed.

Lemma not_slash_spec x : not_slash x = true ↔ x ≠ "/"%char.
Proof.
  unfold not_slash, code. rewrite negb_true_iff, N.eqb_neq. split.
  - by intros H ->.
  - intros H Hx. apply H. rewrite <- (ascii_N_embedding x), Hx. done.
Qed.

Lemma digit_not_dash x : digit x = true → x ≠ "-"%char.
Proof. by intros H ->. Qed.

Lemma hex_not_space x : hex x = true → x ≠ " "%char.
Proof. by intros H ->. Qed.

(** After the directory, the matcher finds what the scan finds. *)
Lemma exec_label_tail s caps :
  exec label_tail s caps (λ _ m, Some m) =
    (λ g, <[3 := g.2]> (<[2 := g.1]> caps)) <$> scan_tail s.
Proof.
  unfold label_tail, scan_tail. cbn [exec].
  rewrite plus_det.
  2:{ intros x t Hx. rewrite decide_False; [done|by apply digit_not_dash]. }
  rewrite consumed_drop_while.
  destruct (drop_while digit s) as [|c s1].
  { by destruct (decide _). }
  destruct (decide (c = "-"%char)) as [->|Hc].
  2:{ by destruct (decide _). }
  rewrite plus_det.
  2:{ intros x t Hx. rewrite decide_False; [done|by apply hex_not_space]. }
  rewrite consumed_drop_while.
  destruct (drop_while hex s1) as [|c s2].
  { by repeat destruct (decide _). }
  destruct (decide (c = " "%char)) as [->|Hc].
  2:{ by repeat destruct (decide _). }
  rewrite star_const. by repeat destruct (decide _).
Qed.

(** The directory group, when the rest of the pattern is [k]. *)
Lemma exec_label_dir {A} s (k : string → gmap nat string → option A) :
  exec label_dir s ∅ k =
    match scan_dir s with
    | Some (dir, s') => k s' {[1 := dir]}
    | None => None
    end.
Proof.
  unfold label_dir, scan_dir. cbn [exec].
  rewrite plus_det.
  2:{ intros x t Hx. rewrite decide_False; [done|by apply not_slash_spec]. }
  pose proof (take_drop_while not_slash s) as Hs.
  destruct (drop_while not_slash s) as [|c s1].
  { by destruct (decide _). }
  destruct (decide (c = "/"%char)) as [->|Hc].
  2:{ by destruct (decide _). }
  destruct (decide _); [done|].
  rewrite <- Hs at 1.
  change (String "/" s1) with ("/" +:+ s1).
  by rewrite <- str_app_assoc, consumed_app.
Qed.

(** [re.match] with the label pattern finds the groups that a scan from
    left to right finds. *)
Lemma re_match_label s : groups <$> re_match label_pattern s = scan s.
Proof.
  unfold re_match, label_pattern, scan. cbn [exec].
  rewrite exec_label_dir.
  destruct (scan_dir s) as [[dir s']|].
  - rewrite !exec_label_tail.
    destruct (scan_tail s') as [[num rev]|]; [done|].
    by destruct (scan_tail s) as [[num' rev']|].
  - rewrite exec_label_tail. by destruct (scan_tail s) as [[num rev]|].
Qed.

Lemma all_chars_impl (p q : ascii → bool) s :
  (∀ x, p x = true → q x = true) → all_chars p s = true → all_chars q s = true.
Proof.
  intros Hpq. induction s as [|x s IH]; [done|]. simpl.
  rewrite !andb_true_iff. intros [Hx Hs]. auto.
Qed.

Lemma drop_while_all p s : all_chars p s = true → drop_while p s = "".
Proof.
  intros Hs. destruct (take_while_app p s "" Hs eq_refl) as [_ H].
  by rewrite str_app_nil_r in H.
Qed.

Lemma hex_not_dash x : hex x = true → x ≠ "-"%char.
Proof. by intros H ->. Qed.

Lemma digit_not_slash x : digit x = true → not_slash x = true.
Proof. intros H. apply not_slash_spec. by intros ->. Qed.

Lemma hex_not_slash x : hex x = true → not_slash x = true.
Proof. intros H. apply not_slash_spec. by intros ->. Qed.

(** What a successful scan says about the string. *)
Lemma scan_tail_inv s num rev :
  scan_tail s = Some (num, rev) →
  num ≠ "" ∧ rev ≠ "" ∧
  all_chars digit num = true ∧ all_chars hex rev = true ∧
  ∃ rest, s = num +:+ "-" +:+ rev +:+ " " +:+ rest.
Proof.
  unfold scan_tail. intros H.
  pose proof (take_drop_while digit s) as Hs.
  destruct (drop_while digit s) as [|c s1]; [done|].
  destruct (decide (c = "-"%char)) as [->|]; [|done].
  pose proof (take_drop_while hex s1) as Hs1.
  destruct (drop_while hex s1) as [|c s2]; [done|].
  destruct (decide (c = " "%char)) as [->|]; [|done].
  repeat destruct (decide _); try done. simplify_eq.
  split_and!; [done|done|apply all_chars_take_while..|].
  exists s2. rewrite <- Hs at 1. f_equal.
  change (String "-" s1) with ("-" +:+ s1). f_equal.
  by rewrite <- Hs1 at 1.
Qed.

Lemma scan_dir_inv s dir s' :
  scan_dir s = Some (dir, s') →
  s = dir +:+ s' ∧
  ∃ d, dir = d +:+ "/" ∧ d ≠ "" ∧ all_chars not_slash d = true.
Proof.
  unfold scan_dir. intros H.
  pose proof (take_drop_while not_slash s) as Hs.
  destruct (drop_while not_slash s) as [|c s1]; [done|].
  destruct (decide (c = "/"%char)) as [->|]; [|done].
  destruct (decide _); [done|]. simplify_eq. split.
  - by rewrite str_app_assoc.
  - eexists. split_and!; [done|done|apply all_chars_take_while].
Qed.

Lemma scan_inv s dir num rev :
  scan s = Some (dir, num, rev) →
  ∃ n r rest,
    num = Some n ∧ rev = Some r ∧
    n ≠ "" ∧ r ≠ "" ∧ all_chars digit n = true ∧ all_chars hex r = true ∧
    s = default "" dir +:+ n +:+ "-" +:+ r +:+ " " +:+ rest.
Proof.
  unfold scan. intros H.
  destruct (scan_dir s) as [[d s']|] eqn:Hd.
  - apply scan_dir_inv in Hd as [-> _].
    destruct (scan_tail s') as [[n r]|] eqn:Ht.
    + simplify_eq. apply scan_tail_inv in Ht as (?&?&?&?&rest&->).
      exists n, r, rest. done.
    + destruct (scan_tail (d +:+ s')) as [[n r]|] eqn:Ht'; [|done].
      simplify_eq. apply scan_tail_inv in Ht' as (?&?&?&?&rest&Hs).
      exists n, r, rest. done.
  - destruct (scan_tail s) as [[n r]|] eqn:Ht; [|done].
    simplify_eq. apply scan_tail_inv in Ht as (?&?&?&?&rest&Hs).
    exists n, r, rest. done.
Qed.

(** A label that ends with the revision is not found by the scan. *)
Lemma scan_no_space num rev :
  all_chars digit num = true → all_chars hex rev = true →
  scan (num +:+ "-" +:+ rev) = None.
Proof.
  intros Hn Hr.
  assert (scan_tail (num +:+ "-" +:+ rev) = None) as Ht.
  { unfold scan_tail.
    destruct (take_while_app digit num ("-" +:+ rev) Hn eq_refl) as [_ ->].
    change ("-" +:+ rev) with (String "-" rev).
    cbv iota beta. rewrite decide_True by done. by rewrite drop_while_all. }
  assert (scan_dir (num +:+ "-" +:+ rev) = None) as Hd.
  { unfold scan_dir. rewrite drop_while_all; [done|].
    rewrite !all_chars_app, !andb_true_iff. split_and!; [|done|].
    - by apply (all_chars_impl digit), Hn; apply digit_not_slash.
    - by apply (all_chars_impl hex), Hr; apply hex_not_slash. }
  unfold scan. by rewrite Hd, Ht.
Qed.

Lemma re_match_label_None s : scan s = None → re_match label_pattern s = None.
Proof.
  rewrite <- re_match_label. by destruct (re_match label_pattern s).
Qed.

Lemma re_match_label_Some s m :
  re_match label_pattern s = Some m → scan s = Some (groups m).
Proof. intros H. by rewrite <- re_match_label, H. Qed.

(** ** Dict operations *)

Section dict.
Implicit Types (d : Dict.dict) (k : string) (v : json).

Lemma get_set_eq k v d : Dict.get k (Dict.set k v d) = Some v.
Proof.
  induction d as [|[k' v'] d IH]; simpl.
  - by rewrite decide_True.
  - destruct (decide (k' = k)); simpl.
    + by rewrite decide_True.
    + by rewrite decide_False.
Qed.

Lemma get_set_ne k k' v d : k ≠ k' → Dict.get k' (Dict.set k v d) = Dict.get k' d.
Proof.
  intros Hk. induction d as [|[k0 v0] d IH]; simpl.
  - by rewrite decide_False.
  - destruct (decide (k0 = k)) as [->|]; simpl.
    + by rewrite !decide_False.
    + by rewrite IH.
Qed.

Lemma get_del_eq k d : Dict.get k (Dict.del k d) = None.
Proof.
  unfold Dict.del. induction d as [|[k' v'] d IH]; [done|].
  rewrite filter_cons. simpl. destruct (decide (k' ≠ k)); simpl.
  - by rewrite decide_False.
  - done.
Qed.

Lemma get_del_ne k k' d : k ≠ k' → Dict.get k' (Dict.del k d) = Dict.get k' d.
Proof.
  intros Hk. unfold Dict.del. induction d as [|[k0 v0] d IH]; [done|].
  rewrite filter_cons. simpl. destruct (decide (k0 ≠ k)) as [|Hk0]; simpl.
  - by rewrite IH.
  - apply dec_stable in Hk0 as ->. by rewrite decide_False.
Qed.
End dict.

(** ** The loops of the Transformer *)

Lemma Ok_inj {A} (x y : A) : Ok x = Ok y → x = y.
Proof. by intros [= ->]. Qed.

(** Turn the [Forall2] of an inverted hypothesis back into a run of the
    loop, with the induction hypothesis [IH]. *)
Ltac use_IH IH :=
  match goal with
  | H : Forall2 _ _ _ |- _ => apply IH in H
  end.

Section transformer.
Context (c2m : gmap string string).

(** The record of one sample, for an entry that is an object with a
    [times] field. *)
Lemma output_row_Ok d num commit time :
  is_Some (Dict.get "times" d) →
  output_row c2m (JObj d) num commit time =
    Ok (JObj (Dict.set "time" time (Dict.del "times"
         (Dict.set "message" (JStr (get_message c2m commit))
         (Dict.set "commit" (JStr (format num +:+ "-" +:+ format commit))
            d))))).
Proof.
  intros [ts Hts]. unfold output_row. simpl.
  by rewrite !get_set_ne, Hts.
Qed.

(** The records are appended to the output that is already there. *)
Lemma for_times_app_acc row num commit ts acc output :
  for_times c2m row num commit ts (output ++ acc) =
    (output ++.) <$> for_times c2m row num commit ts acc.
Proof.
  revert acc. induction ts as [|t ts IH]; intros acc; simpl; [done|].
  destruct (output_row c2m row num commit t) as [r|e]; simpl; [|done].
  by rewrite <- (assoc_L (++)), IH.
Qed.

Lemma for_times_app row num commit ts output :
  for_times c2m row num commit ts output =
    (output ++.) <$> for_times c2m row num commit ts [].
Proof. by rewrite <- for_times_app_acc, app_nil_r. Qed.

Lemma for_times_Ok row num commit ts block :
  for_times c2m row num commit ts [] = Ok block ↔
  Forall2 (λ t r, output_row c2m row num commit t = Ok r) ts block.
Proof.
  revert block. induction ts as [|t ts IH]; intros block; simpl.
  { split; [by intros [= <-]; constructor|by inv 1]. }
  destruct (output_row c2m row num commit t) as [r|e] eqn:Hr; simpl.
  2:{ split; [done|]. inv 1. congruence. }
  rewrite for_times_app.
  destruct (for_times c2m row num commit ts []) as [b|e]; simpl.
  - split.
    + intros [= <-]. constructor; [done|]. by apply IH.
    + intros HF. inv HF. use_IH IH. congruence.
  - split; [done|]. intros HF. inv HF. by use_IH IH.
Qed.

Lemma row_body_app row output :
  row_body c2m row output = (output ++.) <$> records_of c2m row.
Proof.
  unfold records_of, row_body.
  destruct (getitem row "command") as [command|]; simpl; [|done].
  destruct (match_groups command) as [[[dir num] commit]|]; simpl; [|done].
  destruct (getitem row "times") as [ts|]; simpl; [|done].
  destruct (iter ts) as [l|]; simpl; [|done].
  apply for_times_app.
Qed.

Lemma for_rows_app_acc rows acc output :
  for_rows c2m rows (output ++ acc) =
    (output ++.) <$> for_rows c2m rows acc.
Proof.
  revert acc. induction rows as [|row rows IH]; intros acc; simpl; [done|].
  rewrite (row_body_app row (output ++ acc)), (row_body_app row acc).
  destruct (records_of c2m row) as [b|e]; simpl; [|done].
  by rewrite <- (assoc_L (++)), IH.
Qed.

(** The output is the concatenation of what the entries contribute, in the
    order of the entries. *)
Lemma for_rows_Ok rows output :
  for_rows c2m rows [] = Ok output ↔
  ∃ blocks,
    Forall2 (λ row block, records_of c2m row = Ok block) rows blocks ∧
    output = concat blocks.
Proof.
  revert output. induction rows as [|row rows IH]; intros output; simpl.
  { split.
    - intros [= <-]. exists []. by split; [constructor|].
    - intros (blocks & Hb & ->). by inv Hb. }
  rewrite (row_body_app row []).
  destruct (records_of c2m row) as [b|e] eqn:Hrow; simpl.
  2:{ split; [done|]. intros (blocks & Hb & ->). inv Hb. congruence. }
  rewrite <- (app_nil_r b) at 1. rewrite for_rows_app_acc.
  destruct (for_rows c2m rows []) as [out|e]; simpl.
  - split.
    + intros [= <-]. destruct (proj1 (IH out) eq_refl) as (blocks & Hb & ->).
      exists (b :: blocks). by split; [constructor|].
    + intros (blocks & Hb & ->). inv Hb.
      match goal with
      | H : Forall2 _ rows ?l |- _ =>
          assert (Ok out = Ok (concat l)) as Hout; [apply IH; by eexists|]
      end.
      simpl. congruence.
  - split; [done|]. intros (blocks & Hb & ->). inv Hb.
    match goal with
    | H : Forall2 _ rows ?l |- _ =>
        assert (Err e = Ok (concat l)) as ?; [apply IH; by eexists|done]
    end.
Qed.

(** One entry that fails makes the loop fail. *)
Lemma for_rows_Err rows row output :
  row ∈ rows → is_Err (records_of c2m row) →
  is_Err (for_rows c2m rows output).
Proof.
  intros Hin [e He]. revert output.
  induction Hin as [row rows|row row' rows Hin IH]; intros output; simpl.
  - rewrite row_body_app, He. by eexists.
  - destruct (row_body c2m row' output) as [out|e']; simpl; [auto|by eexists].
Qed.
End transformer.

(** ** One entry of the report *)

Section entry.
Context (c2m : gmap string string).

(** In an entry that is well formed, every sample gives a record. *)
Lemma records_of_Ok d cmd m tv ts :
  Dict.get "command" d = Some (JStr cmd) →
  re_match label_pattern cmd = Some m →
  Dict.get "times" d = Some tv →
  iter tv = Ok ts →
  ∃ block,
    records_of c2m (JObj d) = Ok block ∧
    Forall2 (λ t r, output_row c2m (JObj d) (m !! 2) (m !! 3) t = Ok r)
      ts block.
Proof.
  intros Hcmd Hm Htv Hts.
  assert (∃ block, for_times c2m (JObj d) (m !! 2) (m !! 3) ts [] = Ok block)
    as [block Hblock].
  { clear Hts. generalize (@nil json) as acc.
    induction ts as [|t ts IH]; intros acc; simpl; [by eexists|].
    rewrite output_row_Ok by (by rewrite Htv). simpl. apply IH. }
  exists block. split; [|by apply for_times_Ok].
  unfold records_of, row_body. simpl.
  by rewrite Hcmd, Htv; simpl; rewrite Hm; simpl; rewrite Hts.
Qed.

(** An entry that gives records is an object with a command that carries a
    label and with [times] that can be run through. *)
Lemma records_of_inv row block :
  records_of c2m row = Ok block →
  ∃ d cmd m tv ts,
    row = JObj d ∧
    Dict.get "command" d = Some (JStr cmd) ∧
    re_match label_pattern cmd = Some m ∧
    Dict.get "times" d = Some tv ∧
    iter tv = Ok ts ∧
    Forall2 (λ t r, output_row c2m row (m !! 2) (m !! 3) t = Ok r) ts block.
Proof.
  unfold records_of, row_body. intros H.
  destruct row as [| | | | |l|d]; try done. simpl in H.
  destruct (Dict.get "command" d) as [command|] eqn:Hcmd; [|done].
  simpl in H. destruct command as [| | | |cmd| |]; try done. simpl in H.
  destruct (re_match label_pattern cmd) as [m|] eqn:Hm; [|done].
  simpl in H.
  destruct (Dict.get "times" d) as [tv|] eqn:Htv; [|done]. simpl in H.
  destruct (iter tv) as [ts|] eqn:Hts; [|done]. simpl in H.
  exists d, cmd, m, tv, ts. split_and!; try done. by apply for_times_Ok.
Qed.

(** The fields of the record of one sample. *)
Lemma output_row_fields d num commit t r :
  output_row c2m (JObj d) num commit t = Ok r →
  (∀ k, k ∉ ["commit"; "message"; "times"; "time"] →
        getitem r k = getitem (JObj d) k) ∧
  getitem r "commit" = Ok (JStr (format num +:+ "-" +:+ format commit)) ∧
  getitem r "message" = Ok (JStr (get_message c2m commit)) ∧
  getitem r "times" = Err KeyError ∧
  getitem r "time" = Ok t.
Proof.
  intros H.
  assert (is_Some (Dict.get "times" d)) as Hts.
  { unfold output_row in H. simpl in H.
    rewrite !get_set_ne in H by done. by destruct (Dict.get "times" d). }
  rewrite output_row_Ok in H by done. injection H as <-.
  split_and!; simpl.
  - intros k Hk. rewrite !not_elem_of_cons in Hk.
    destruct Hk as (?&?&?&?&_).
    by rewrite get_set_ne, get_del_ne, !get_set_ne.
  - by rewrite get_set_ne, get_del_ne, get_set_ne, get_set_eq.
  - by rewrite get_set_ne, get_del_ne, get_set_eq.
  - by rewrite get_set_ne, get_del_eq.
  - by rewrite get_set_eq.
Qed.

(** An entry whose command carries no label gives an exception. *)
Lemma records_of_unmatched row cmd output :
  getitem row "command" = Ok (JStr cmd) →
  re_match label_pattern cmd = None →
  row_body c2m row output = Err AttributeError.
Proof. intros Hcmd Hm. unfold row_body. rewrite Hcmd. simpl. by rewrite Hm. Qed.
End entry.

(** The script on a report whose entries are [rows]. *)
Lemma transform_rows walk input rows :
  getitem input "results" ≫= iter = Ok rows →
  transform walk input = for_rows (commit2message walk) rows [].
Proof.
  unfold transform. intros H.
  destruct (getitem input "results") as [results|]; [|done]. simpl in *.
  by rewrite H.
Qed.

Lemma transform_inv walk input output :
  transform walk input = Ok output →
  ∃ rows, getitem input "results" ≫= iter = Ok rows.
Proof.
  unfold transform. intros H.
  destruct (getitem input "results") as [results|]; [|done]. simpl in *.
  destruct (iter results) as [rows|]; [|done]. by exists rows.
Qed.

(** The groups of a label: the number and the revision are always there,
    and the command is the directory, the number, a dash, the revision, a
    space and the rest. *)
Lemma label_groups cmd m :
  re_match label_pattern cmd = Some m →
  ∃ num rev rest,
    m !! 2 = Some num ∧ m !! 3 = Some rev ∧
    num ≠ "" ∧ rev ≠ "" ∧
    all_chars digit num = true ∧ all_chars hex rev = true ∧
    cmd = default "" (m !! 1) +:+ num +:+ "-" +:+ rev +:+ " " +:+ rest.
Proof.
  intros Hm%re_match_label_Some. unfold groups in Hm.
  apply scan_inv in Hm as (num & rev & rest & H2 & H3 & ? & ? & ? & ? & ?).
  by exists num, rev, rest.
Qed.

(** What every record of a [Forall2] over the samples has. *)
Lemma Forall2_elem_of_r {A B} (P : A → B → Prop) l k y :
  Forall2 P l k → y ∈ k → ∃ x, x ∈ l ∧ P x y.
Proof.
  induction 1 as [|x z l k HP HF IH]; [by intros ?%elem_of_nil|].
  intros [->|Hy]%elem_of_cons.
  - exists x. split; [left|done].
  - destruct (IH Hy) as (x' & ? & ?). exists x'. split; [by right|done].
Qed.

(** ** The log *)

Lemma commit2message_snoc walk c :
  commit2message (walk ++ [c]) = <[id_hex c := message c]> (commit2message walk).
Proof. unfold commit2message. by rewrite foldl_app. Qed.

Lemma commit2message_None walk h :
  commit2message walk !! h = None ↔ h ∉ id_hex <$> walk.
Proof.
  induction walk as [|c walk IH] using rev_ind.
  - split; [by intros _ ?%elem_of_nil|done].
  - rewrite commit2message_snoc, fmap_app, lookup_insert_None, IH.
    rewrite elem_of_app. simpl. rewrite list_elem_of_singleton.
    split.
    + intros [Hw Hc] [?|?]; [by apply Hw|by apply Hc].
    + intros H. split; [intros ?|intros ?]; apply H; by auto.
Qed.

Lemma commit2message_Some walk c :
  NoDup (id_hex <$> walk) → c ∈ walk →
  commit2message walk !! id_hex c = Some (message c).
Proof.
  induction walk as [|c' walk IH] using rev_ind; [by intros _ ?%elem_of_nil|].
  rewrite fmap_app, NoDup_app, commit2message_snoc. simpl.
  intros (Hnd & Hdisj & _) [Hc| ->%list_elem_of_singleton]%elem_of_app.
  - rewrite lookup_insert_ne; [by apply IH|].
    intros Heq. apply (Hdisj (id_hex c)).
    + apply list_elem_of_fmap. by exists c.
    + rewrite Heq. by left.
  - by rewrite lookup_insert_eq.
Qed.

(** ** The Transformer: claims *)

(** C1, as amended: for an entry whose command carries a label and for every
    sample of its [times] list, in order, there is one record; it has every
    field of the entry other than [times], [time], [commit] and [message]
    with the value of the entry, no [times], [time] equal to the sample, and
    [commit] and [message] as the script sets them, also where the entry
    had fields of these names. *)
Theorem flattened_record_fields (c2m : gmap string string) d cmd m ts :
  Dict.get "command" d = Some (JStr cmd) →
  re_match label_pattern cmd = Some m →
  Dict.get "times" d = Some (JArr ts) →
  ∃ num rev block,
    m !! 2 = Some num ∧ m !! 3 = Some rev ∧
    records_of c2m (JObj d) = Ok block ∧
    Forall2 (λ t r,
      (∀ k, k ∉ ["commit"; "message"; "times"; "time"] →
            getitem r k = getitem (JObj d) k) ∧
      getitem r "commit" = Ok (JStr (num +:+ "-" +:+ rev)) ∧
      getitem r "message" = Ok (JStr (default "" (c2m !! rev))) ∧
      getitem r "times" = Err KeyError ∧
      getitem r "time" = Ok t) ts block.
Proof.
  intros Hcmd Hm Hts.
  destruct (label_groups cmd m Hm) as (num & rev & rest & H2 & H3 & _).
  destruct (records_of_Ok c2m d cmd m (JArr ts) ts) as (block & Hb & HF);
    [done..|].
  exists num, rev, block. split_and!; [done..|].
  eapply Forall2_impl; [exact HF|]. intros t r Hr. simpl in Hr.
  apply output_row_fields in Hr. by rewrite H2, H3 in Hr.
Qed.

Lemma flattened_record_fields_witness :
  let d := [("command", JStr "bin/003-abc123 < in > /dev/null");
            ("mean", JFloat f1_1); ("times", JArr [JFloat f1_0; JFloat f1_2])] in
  let m : gmap nat string := <[3 := "abc123"]> (<[2 := "003"]> {[1 := "bin/"]}) in
  (Dict.get "command" d = Some (JStr "bin/003-abc123 < in > /dev/null") ∧
   re_match label_pattern "bin/003-abc123 < in > /dev/null" = Some m ∧
   Dict.get "times" d = Some (JArr [JFloat f1_0; JFloat f1_2])) ∧
  ∃ num rev block,
    m !! 2 = Some num ∧ m !! 3 = Some rev ∧
    records_of ∅ (JObj d) = Ok block ∧
    Forall2 (λ t r,
      (∀ k, k ∉ ["commit"; "message"; "times"; "time"] →
            getitem r k = getitem (JObj d) k) ∧
      getitem r "commit" = Ok (JStr (num +:+ "-" +:+ rev)) ∧
      getitem r "message" = Ok (JStr (default "" ((∅ : gmap string string) !! rev))) ∧
      getitem r "times" = Err KeyError ∧
      getitem r "time" = Ok t) [JFloat f1_0; JFloat f1_2] block.
Proof.
  intros d m.
  assert (re_match label_pattern "bin/003-abc123 < in > /dev/null" = Some m)
    as Hm by (vm_compute; reflexivity).
  split; [split_and!; [reflexivity|exact Hm|reflexivity]|].
  exact (flattened_record_fields ∅ d _ m _ eq_refl Hm eq_refl).
Defined.

(** C1, as stated, fails where the entry has a field named [commit]: the
    record has the label there, not the value of the entry. *)
Lemma original_commit_field_overwritten :
  ∃ r,
    transform []
      (JObj [("results", JArr [
         JObj [("command", JStr "bin/003-abc123 < in > /dev/null");
               ("times", JArr [JFloat f1_5]);
               ("commit", JStr "old")]])]) = Ok [r] ∧
    getitem
      (JObj [("command", JStr "bin/003-abc123 < in > /dev/null");
             ("times", JArr [JFloat f1_5]);
             ("commit", JStr "old")]) "commit" = Ok (JStr "old") ∧
    getitem r "commit" = Ok (JStr "003-abc123") ∧
    getitem r "commit" ≠ Ok (JStr "old").
Proof.
  eexists. split_and!; [vm_compute; reflexivity|reflexivity|reflexivity|done].
Qed.

(** C6: the [commit] field of every record of an entry is the number, a
    dash and the revision, and these are the very characters of the command
    that follow the directory: nothing is stripped and nothing is
    normalised. *)
Theorem commit_field (c2m : gmap string string) row cmd m block :
  getitem row "command" = Ok (JStr cmd) →
  re_match label_pattern cmd = Some m →
  records_of c2m row = Ok block →
  ∃ num rev rest,
    m !! 2 = Some num ∧ m !! 3 = Some rev ∧
    cmd = default "" (m !! 1) +:+ num +:+ "-" +:+ rev +:+ " " +:+ rest ∧
    ∀ r, r ∈ block → getitem r "commit" = Ok (JStr (num +:+ "-" +:+ rev)).
Proof.
  intros Hcmd Hm Hb.
  destruct (label_groups cmd m Hm) as (num & rev & rest & H2 & H3 & Hs).
  exists num, rev, rest. split_and!; [done|done|apply Hs|].
  apply records_of_inv in Hb as (d & cmd' & m' & tv & ts & -> & Hd & Hm' & _ & _ & HF).
  simpl in Hcmd. rewrite Hd in Hcmd. simplify_eq.
  intros r Hr. destruct (Forall2_elem_of_r _ _ _ _ HF Hr) as (t & _ & Ht).
  apply output_row_fields in Ht as (_ & Hc & _). by rewrite H2, H3 in Hc.
Qed.

Lemma commit_field_witness :
  let row := JObj [("command", JStr "bin/003-abc123 < in > /dev/null");
                   ("times", JArr [JFloat f1_0; JFloat f1_2])] in
  let m : gmap nat string := <[3 := "abc123"]> (<[2 := "003"]> {[1 := "bin/"]}) in
  let block :=
    [JObj [("command", JStr "bin/003-abc123 < in > /dev/null");
           ("commit", JStr "003-abc123"); ("message", JStr "");
           ("time", JFloat f1_0)];
     JObj [("command", JStr "bin/003-abc123 < in > /dev/null");
           ("commit", JStr "003-abc123"); ("message", JStr "");
           ("time", JFloat f1_2)]] in
  (getitem row "command" = Ok (JStr "bin/003-abc123 < in > /dev/null") ∧
   re_match label_pattern "bin/003-abc123 < in > /dev/null" = Some m ∧
   records_of ∅ row = Ok block) ∧
  ∃ num rev rest,
    m !! 2 = Some num ∧ m !! 3 = Some rev ∧
    "bin/003-abc123 < in > /dev/null" =
      default "" (m !! 1) +:+ num +:+ "-" +:+ rev +:+ " " +:+ rest ∧
    ∀ r, r ∈ block → getitem r "commit" = Ok (JStr (num +:+ "-" +:+ rev)).
Proof.
  intros row m block.
  assert (re_match label_pattern "bin/003-abc123 < in > /dev/null" = Some m)
    as Hm by (vm_compute; reflexivity).
  assert (records_of ∅ row = Ok block) as Hb by (vm_compute; reflexivity).
  split; [split_and!; [reflexivity|exact Hm|exact Hb]|].
  exact (commit_field ∅ row _ m block eq_refl Hm Hb).
Defined.

(** C5: in the records of an entry whose command carries a label, [message]
    is the empty string where the revision is not a key of the log, and the
    entry gives its records all the same; where the revision is a key,
    [message] is the message recorded under it.  The keys of the log are
    the [id.hex] of the commits of the walk, and a commit of the walk is
    recorded with its own message. *)
Theorem message_field walk d cmd m ts :
  Dict.get "command" d = Some (JStr cmd) →
  re_match label_pattern cmd = Some m →
  Dict.get "times" d = Some (JArr ts) →
  ∃ rev block,
    m !! 3 = Some rev ∧
    records_of (commit2message walk) (JObj d) = Ok block ∧
    length block = length ts ∧
    (commit2message walk !! rev = None →
       ∀ r, r ∈ block → getitem r "message" = Ok (JStr "")) ∧
    (∀ msg, commit2message walk !! rev = Some msg →
       ∀ r, r ∈ block → getitem r "message" = Ok (JStr msg)) ∧
    (commit2message walk !! rev = None ↔ rev ∉ id_hex <$> walk) ∧
    (NoDup (id_hex <$> walk) →
       ∀ c, c ∈ walk → commit2message walk !! id_hex c = Some (message c)).
Proof.
  intros Hcmd Hm Hts.
  destruct (label_groups cmd m Hm) as (num & rev & rest & H2 & H3 & _).
  destruct (records_of_Ok (commit2message walk) d cmd m (JArr ts) ts)
    as (block & Hb & HF); [done..|].
  assert (∀ r, r ∈ block →
    getitem r "message" =
      Ok (JStr (default "" (commit2message walk !! rev)))) as Hmsg.
  { intros r Hr. destruct (Forall2_elem_of_r _ _ _ _ HF Hr) as (t & _ & Ht).
    apply output_row_fields in Ht as (_ & _ & Hmsg & _).
    by rewrite H3 in Hmsg. }
  exists rev, block. split_and!.
  - done.
  - done.
  - symmetry. by eapply Forall2_length.
  - intros Hrev r Hr. by rewrite (Hmsg r Hr), Hrev.
  - intros msg Hrev r Hr. by rewrite (Hmsg r Hr), Hrev.
  - apply commit2message_None.
  - intros Hnd c Hc. by apply commit2message_Some.
Qed.

Lemma message_field_witness :
  let walk := [Commit "abc123" "Fix the pager"; Commit "0d5e" "Initial commit"] in
  let d := [("command", JStr "bin/003-abc123 < in > /dev/null");
            ("times", JArr [JFloat f1_0; JFloat f1_2])] in
  let m : gmap nat string := <[3 := "abc123"]> (<[2 := "003"]> {[1 := "bin/"]}) in
  (Dict.get "command" d = Some (JStr "bin/003-abc123 < in > /dev/null") ∧
   re_match label_pattern "bin/003-abc123 < in > /dev/null" = Some m ∧
   Dict.get "times" d = Some (JArr [JFloat f1_0; JFloat f1_2])) ∧
  ∃ rev block,
    m !! 3 = Some rev ∧
    records_of (commit2message walk) (JObj d) = Ok block ∧
    length block = length [JFloat f1_0; JFloat f1_2] ∧
    (commit2message walk !! rev = None →
       ∀ r, r ∈ block → getitem r "message" = Ok (JStr "")) ∧
    (∀ msg, commit2message walk !! rev = Some msg →
       ∀ r, r ∈ block → getitem r "message" = Ok (JStr msg)) ∧
    (commit2message walk !! rev = None ↔ rev ∉ id_hex <$> walk) ∧
    (NoDup (id_hex <$> walk) →
       ∀ c, c ∈ walk → commit2message walk !! id_hex c = Some (message c)).
Proof.
  intros walk d m.
  assert (re_match label_pattern "bin/003-abc123 < in > /dev/null" = Some m)
    as Hm by (vm_compute; reflexivity).
  split; [split_and!; [reflexivity|exact Hm|reflexivity]|].
  exact (message_field walk d _ m _ eq_refl Hm eq_refl).
Defined.

(** The two cases of C5 on the example of the specification: a revision
    that the log has, and one that it does not have. *)
Example message_present_and_absent :
  transform [Commit "abc123" "Fix the pager"]
    (JObj [("results", JArr [
       JObj [("command", JStr "bin/003-abc123 ..."); ("times", JArr [JFloat f1_0])];
       JObj [("command", JStr "bin/004-def456 ..."); ("times", JArr [JFloat f1_2])]])])
  = Ok [JObj [("command", JStr "bin/003-abc123 ..."); ("commit", JStr "003-abc123");
              ("message", JStr "Fix the pager"); ("time", JFloat f1_0)];
        JObj [("command", JStr "bin/004-def456 ..."); ("commit", JStr "004-def456");
              ("message", JStr ""); ("time", JFloat f1_2)]].
Proof. vm_compute. reflexivity. Qed.

(** The example of the specification: two samples, and a revision that
    the history does not have. *)
Example two_samples_revision_absent :
  transform []
    (JObj [("results", JArr [
       JObj [("command", JStr "bin/003-abc123 ...");
             ("times", JArr [JFloat f1_0; JFloat f1_2])]])])
  = Ok [JObj [("command", JStr "bin/003-abc123 ..."); ("commit", JStr "003-abc123");
              ("message", JStr ""); ("time", JFloat f1_0)];
        JObj [("command", JStr "bin/003-abc123 ..."); ("commit", JStr "003-abc123");
              ("message", JStr ""); ("time", JFloat f1_2)]].
Proof. vm_compute. reflexivity. Qed.

(** An entry that fails makes the script fail. *)
Lemma transform_fails walk input rows row :
  getitem input "results" ≫= iter = Ok rows →
  row ∈ rows →
  is_Err (records_of (commit2message walk) row) →
  is_Err (transform walk input).
Proof.
  intros Hrows Hin Herr. rewrite (transform_rows walk input rows Hrows).
  by eapply for_rows_Err.
Qed.

(** C7: where an entry of the report has a command that does not match the
    label pattern, the script ends with an exception and hands no array to
    [json.dump]: the entry is not skipped. *)
Theorem unmatched_label_fails walk input rows row cmd :
  getitem input "results" ≫= iter = Ok rows →
  row ∈ rows →
  getitem row "command" = Ok (JStr cmd) →
  re_match label_pattern cmd = None →
  records_of (commit2message walk) row = Err AttributeError ∧
  is_Err (transform walk input).
Proof.
  intros Hrows Hin Hcmd Hm.
  assert (records_of (commit2message walk) row = Err AttributeError) as Hrow.
  { by eapply records_of_unmatched. }
  split; [done|]. eapply transform_fails; [done..|]. by eexists.
Qed.

Lemma unmatched_label_fails_witness :
  let good := JObj [("command", JStr "bin/003-abc123 ..."); ("times", JArr [JFloat f1_0])] in
  let bad := JObj [("command", JStr "mytool"); ("times", JArr [JFloat f1_2])] in
  let input := JObj [("results", JArr [good; bad])] in
  (getitem input "results" ≫= iter = Ok [good; bad] ∧
   bad ∈ [good; bad] ∧
   getitem bad "command" = Ok (JStr "mytool") ∧
   re_match label_pattern "mytool" = None) ∧
  records_of (commit2message []) bad = Err AttributeError ∧
  is_Err (transform [] input).
Proof.
  intros good bad input.
  assert (bad ∈ [good; bad]) as Hin by (right; left).
  split; [split_and!; [reflexivity|exact Hin|reflexivity|reflexivity]|].
  exact (unmatched_label_fails [] input [good; bad] bad "mytool"
           eq_refl Hin eq_refl eq_refl).
Defined.

(** C10: a command that is digits, a dash and hexadecimal digits, with
    nothing after them, does not match the label pattern, which asks for a
    space after the revision; [re.match(...).groups()] fails on it as it
    does on "mytool", and so does the script on a report that has it. *)
Theorem label_without_space_fails walk num rev :
  all_chars digit num = true →
  all_chars hex rev = true →
  re_match label_pattern (num +:+ "-" +:+ rev) = None ∧
  match_groups (JStr (num +:+ "-" +:+ rev)) = match_groups (JStr "mytool") ∧
  ∀ input rows row,
    getitem input "results" ≫= iter = Ok rows →
    row ∈ rows →
    getitem row "command" = Ok (JStr (num +:+ "-" +:+ rev)) →
    is_Err (transform walk input).
Proof.
  intros Hnum Hrev.
  assert (re_match label_pattern (num +:+ "-" +:+ rev) = None) as Hm.
  { by apply re_match_label_None, scan_no_space. }
  split_and!; [done|by simpl; rewrite Hm|].
  intros input rows row Hrows Hin Hcmd.
  eapply transform_fails; [done..|].
  exists AttributeError. by eapply records_of_unmatched.
Qed.

Lemma label_without_space_fails_witness :
  (all_chars digit "003" = true ∧ all_chars hex "abc123" = true) ∧
  re_match label_pattern ("003" +:+ "-" +:+ "abc123") = None ∧
  match_groups (JStr ("003" +:+ "-" +:+ "abc123")) = match_groups (JStr "mytool") ∧
  ∀ input rows row,
    getitem input "results" ≫= iter = Ok rows →
    row ∈ rows →
    getitem row "command" = Ok (JStr ("003" +:+ "-" +:+ "abc123")) →
    is_Err (transform [] input).
Proof.
  split; [split; reflexivity|].
  exact (label_without_space_fails [] "003" "abc123" eq_refl eq_refl).
Defined.

(** ** The whole report *)

Lemma well_formed_row_inv row :
  well_formed_row row = true →
  ∃ d cmd m ts,
    row = JObj d ∧
    Dict.get "command" d = Some (JStr cmd) ∧
    re_match label_pattern cmd = Some m ∧
    Dict.get "times" d = Some (JArr ts).
Proof.
  unfold well_formed_row. intros H.
  destruct row as [| | | | |l|d]; try done. simpl in H.
  destruct (Dict.get "command" d) as [[| | | |cmd| |]|] eqn:Hcmd; try done.
  destruct (Dict.get "times" d) as [[| | | | |ts|]|] eqn:Hts; try done.
  apply bool_decide_eq_true in H as [m Hm]. by exists d, cmd, m, ts.
Qed.

Lemma well_formed_inv input :
  well_formed input = true →
  ∃ rows,
    getitem input "results" = Ok (JArr rows) ∧
    Forall (λ row, well_formed_row row = true) rows.
Proof.
  unfold well_formed. intros H.
  destruct (getitem input "results") as [[| | | | |rows|]|] eqn:Hres;
    try done.
  exists rows. split; [done|].
  apply Is_true_true, forallb_True in H. eapply Forall_impl; [exact H|].
  intros row Hrow. by apply Is_true_true.
Qed.

Lemma length_concat {A} (ls : list (list A)) :
  length (concat ls) = sum_list (length <$> ls).
Proof.
  induction ls as [|l ls IH]; [done|]. simpl.
  by rewrite length_app, IH.
Qed.

(** Entries that are well formed give as many records as they have
    samples. *)
Lemma well_formed_rows_records (c2m : gmap string string) rows :
  Forall (λ row, well_formed_row row = true) rows →
  ∃ blocks,
    Forall2 (λ row block, records_of c2m row = Ok block) rows blocks ∧
    length <$> blocks = length ∘ times <$> rows.
Proof.
  induction 1 as [|row rows Hrow _ (blocks & HF & Hlen)].
  { exists []. by split; [constructor|]. }
  apply well_formed_row_inv in Hrow as (d & cmd & m & ts & -> & Hcmd & Hm & Hts).
  destruct (records_of_Ok c2m d cmd m (JArr ts) ts) as (block & Hb & Hrs);
    [done..|].
  exists (block :: blocks). split; [by constructor|].
  rewrite !fmap_cons, Hlen. f_equal.
  unfold times. simpl. rewrite Hts. symmetry. by eapply Forall2_length.
Qed.

(** C2: on a report that is well formed (an object whose [results] is an
    array of objects, each with a command that matches the label pattern
    and with an array as [times]), the script hands out an array, and its
    length is the sum, over the entries of [results], of the lengths of
    their [times] lists. *)
Theorem transform_length walk input :
  well_formed input = true →
  ∃ output,
    transform walk input = Ok output ∧
    length output = sum_list (length ∘ times <$> results input).
Proof.
  intros (rows & Hres & Hrows)%well_formed_inv.
  destruct (well_formed_rows_records (commit2message walk) rows Hrows)
    as (blocks & HF & Hlen).
  exists (concat blocks). split.
  - rewrite (transform_rows walk input rows) by (by rewrite Hres).
    apply for_rows_Ok. by exists blocks.
  - unfold results. rewrite Hres, <- Hlen. apply length_concat.
Qed.

Lemma transform_length_witness :
  let input :=
    JObj [("results", JArr [
      JObj [("command", JStr "bin/003-abc123 < in > /dev/null");
            ("mean", JFloat f1_1); ("times", JArr [JFloat f1_0; JFloat f1_2])];
      JObj [("command", JStr "004-0d5e x"); ("times", JArr [])];
      JObj [("command", JStr "bin/005-ff x");
            ("times", JArr [JFloat f0_5; JFloat f0_25; JFloat f0_75])]])] in
  well_formed input = true ∧
  ∃ output,
    transform [] input = Ok output ∧
    length output = sum_list (length ∘ times <$> results input).
Proof.
  intros input.
  assert (well_formed input = true) as Hwf by (vm_compute; reflexivity).
  split; [exact Hwf|]. exact (transform_length [] input Hwf).
Defined.

(** C9: the output is the records of the first entry, then those of the
    second, and so on; the records of one entry are those of its samples, in
    the order in which [times] gives them. *)
Theorem transform_order walk input output :
  transform walk input = Ok output →
  ∃ rows blocks,
    getitem input "results" ≫= iter = Ok rows ∧
    output = concat blocks ∧
    Forall2 (λ row block,
      ∃ ts,
        getitem row "times" ≫= iter = Ok ts ∧
        Forall2 (λ t r,
          getitem r "time" = Ok t ∧
          getitem r "command" = getitem row "command") ts block)
      rows blocks.
Proof.
  intros H. destruct (transform_inv walk input output H) as [rows Hrows].
  rewrite (transform_rows walk input rows Hrows) in H.
  apply for_rows_Ok in H as (blocks & HF & ->).
  exists rows, blocks. split_and!; [done..|].
  eapply Forall2_impl; [exact HF|]. intros row block Hb. simpl in Hb.
  apply records_of_inv in Hb as (d & cmd & m & tv & ts & -> & _ & _ & Htv & Hts & Hrs).
  exists ts. split; [by simpl; rewrite Htv|].
  eapply Forall2_impl; [exact Hrs|]. intros t r Hr. simpl in Hr.
  apply output_row_fields in Hr as (Hk & _ & _ & _ & Ht).
  split; [done|]. apply Hk. rewrite !not_elem_of_cons. 
  split_and!; [done..|]. apply not_elem_of_nil.
Qed.

Lemma transform_order_witness :
  let input :=
    JObj [("results", JArr [
      JObj [("command", JStr "bin/003-abc123 < in > /dev/null");
            ("times", JArr [JFloat f1_0; JFloat f1_2])];
      JObj [("command", JStr "bin/004-0d5e < in > /dev/null");
            ("times", JArr [JFloat f0_5])]])] in
  let output :=
    [JObj [("command", JStr "bin/003-abc123 < in > /dev/null");
           ("commit", JStr "003-abc123"); ("message", JStr "");
           ("time", JFloat f1_0)];
     JObj [("command", JStr "bin/003-abc123 < in > /dev/null");
           ("commit", JStr "003-abc123"); ("message", JStr "");
           ("time", JFloat f1_2)];
     JObj [("command", JStr "bin/004-0d5e < in > /dev/null");
           ("commit", JStr "004-0d5e"); ("message", JStr "");
           ("time", JFloat f0_5)]] in
  transform [] input = Ok output ∧
  ∃ rows blocks,
    getitem input "results" ≫= iter = Ok rows ∧
    output = concat blocks ∧
    Forall2 (λ row block,
      ∃ ts,
        getitem row "times" ≫= iter = Ok ts ∧
        Forall2 (λ t r,
          getitem r "time" = Ok t ∧
          getitem r "command" = getitem row "command") ts block)
      rows blocks.
Proof.
  intros input output.
  assert (transform [] input = Ok output) as H by (vm_compute; reflexivity).
  split; [exact H|]. exact (transform_order [] input output H).
Defined.

(** ** The Runner: claims *)

Global Instance command_of_inj a : Inj (=) (=) (command_of a).
Proof.
  intros e1 e2 H. unfold command_of in H.
  apply (inj (String.app _)), (inj (String.app _)) in H.
  by apply str_app_inj_r in H.
Qed.

(** C3: for a directory of N entries the script makes one invocation; after
    the options come N commands, one for each entry, in the order of the
    file names; each command is the directory, a slash, the entry, and the
    redirections from the input file and to [/dev/null], so that no two of
    them name the same executable (the entries of a directory have names
    that differ). *)
Theorem runner_invocation tool a listdir :
  NoDup listdir →
  ∃ argv,
    (runner tool a listdir).2 = [argv] ∧
    drop 6 argv =
      (λ entry, executables_dir a +:+ "/" +:+ entry +:+ " < " +:+
                  input_file a +:+ " > /dev/null") <$> sorted listdir ∧
    length (drop 6 argv) = length listdir ∧
    Sorted String.le (sorted listdir) ∧
    sorted listdir ≡ₚ listdir ∧
    NoDup (drop 6 argv).
Proof.
  intros Hnd. exists (hyperfine_args a listdir).
  assert (sorted listdir ≡ₚ listdir) as Hperm
    by apply merge_sort_Permutation.
  assert (drop 6 (hyperfine_args a listdir) = command_of a <$> sorted listdir)
    as Hdrop by done.
  split_and!.
  - done.
  - done.
  - by rewrite Hdrop, length_fmap, Hperm.
  - apply (Sorted_merge_sort _).
  - done.
  - rewrite Hdrop. apply (NoDup_fmap_2 (command_of a)).
    by rewrite Hperm.
Qed.

Lemma runner_invocation_witness :
  NoDup ["004-0d5e"; "003-abc123"; "010-ff"] ∧
  ∃ argv,
    (runner (λ _, 0%Z) (Args "in.diff" "bin" "out.json")
       ["004-0d5e"; "003-abc123"; "010-ff"]).2 = [argv] ∧
    drop 6 argv =
      (λ entry, "bin" +:+ "/" +:+ entry +:+ " < " +:+ "in.diff" +:+
                  " > /dev/null") <$>
        sorted ["004-0d5e"; "003-abc123"; "010-ff"] ∧
    length (drop 6 argv) = length ["004-0d5e"; "003-abc123"; "010-ff"] ∧
    Sorted String.le (sorted ["004-0d5e"; "003-abc123"; "010-ff"]) ∧
    sorted ["004-0d5e"; "003-abc123"; "010-ff"] ≡ₚ
      ["004-0d5e"; "003-abc123"; "010-ff"] ∧
    NoDup (drop 6 argv).
Proof.
  assert (NoDup ["004-0d5e"; "003-abc123"; "010-ff"]) as Hnd.
  { apply (bool_decide_unpack _). vm_compute. exact I. }
  split; [exact Hnd|].
  exact (runner_invocation (λ _, 0%Z) (Args "in.diff" "bin" "out.json")
           ["004-0d5e"; "003-abc123"; "010-ff"] Hnd).
Defined.

(** The invocation of C3 on a directory of three entries. *)
Example runner_three_entries :
  (runner (λ _, 0%Z) (Args "in.diff" "bin" "out.json")
     ["004-0d5e"; "003-abc123"; "010-ff"]).2 =
  [["hyperfine"; "--runs"; "5"; "--export-json"; "out.json";
    "--ignore-failure";
    "bin/003-abc123 < in.diff > /dev/null";
    "bin/004-0d5e < in.diff > /dev/null";
    "bin/010-ff < in.diff > /dev/null"]].
Proof. vm_compute. reflexivity. Qed.

(** C8: every invocation that the script makes starts with the name of the
    tool, a count of 5 runs, the export of JSON to the output file, and the
    flag that ignores the failure of a command, whatever the arguments and
    the directory are. *)
Theorem invocation_options tool a listdir :
  Forall (λ argv,
    take 6 argv =
      ["hyperfine"; "--runs"; "5"; "--export-json"; output_file a;
       "--ignore-failure"])
    (runner tool a listdir).2.
Proof. by repeat constructor. Qed.

(** C4, as amended: when the tool returns a code other than 0, the script
    ends with a [CalledProcessError] that holds this code and that nobody
    catches, and the status of the process is 1: not 0, and not the code of
    the tool. *)
Theorem runner_fails_when_tool_fails tool a listdir :
  tool (hyperfine_args a listdir) ≠ 0%Z →
  (runner tool a listdir).1 =
    Err (CalledProcessError (tool (hyperfine_args a listdir))) ∧
  exit_status (runner tool a listdir).1 = 1%Z.
Proof.
  intros Hcode. unfold runner, check_call. simpl.
  by rewrite decide_False.
Qed.

Lemma runner_fails_when_tool_fails_witness :
  (λ _ : list string, 2%Z) (hyperfine_args (Args "in.diff" "bin" "out.json") ["003-abc123"]) ≠ 0%Z ∧
  (runner (λ _, 2%Z) (Args "in.diff" "bin" "out.json") ["003-abc123"]).1 =
    Err (CalledProcessError
      ((λ _ : list string, 2%Z)
         (hyperfine_args (Args "in.diff" "bin" "out.json") ["003-abc123"]))) ∧
  exit_status
    (runner (λ _, 2%Z) (Args "in.diff" "bin" "out.json") ["003-abc123"]).1 = 1%Z.
Proof.
  assert ((λ _ : list string, 2%Z)
    (hyperfine_args (Args "in.diff" "bin" "out.json") ["003-abc123"]) ≠ 0%Z)
    as Hcode by (simpl; lia).
  split; [exact Hcode|].
  exact (runner_fails_when_tool_fails (λ _, 2%Z)
           (Args "in.diff" "bin" "out.json") ["003-abc123"] Hcode).
Defined.

(** C4, as stated, fails: a tool that returns 2 leaves the script with the
    status 1. *)
Lemma exit_status_not_mirrored :
  ¬ (∀ tool a listdir,
       tool (hyperfine_args a listdir) ≠ 0%Z →
       exit_status (runner tool a listdir).1 =
         tool (hyperfine_args a listdir)).
Proof.
  intros H.
  specialize (H (λ _, 2%Z) (Args "in.diff" "bin" "out.json") ["003-abc123"]).
  simpl in H. assert (1 = 2)%Z as ?; [by apply H|done].
Qed.

(** * Further properties *)

(** ** Labels that the pattern accepts *)

Lemma take_while_none p s t : take_while p s = "" → s ≠ "" → take_while p (s +:+ t) = "".
Proof.
  destruct s as [|x s]; [done|]. intros H _. rewrite str_app_cons.
  simpl in *. by destruct (p x).
Qed.

Lemma drop_while_none p s : take_while p s = "" → drop_while p s = s.
Proof.
  intros H. pose proof (take_drop_while p s) as Hs. by rewrite H in Hs.
Qed.

Lemma scan_tail_complete num rev rest :
  num ≠ "" → rev ≠ "" →
  all_chars digit num = true → all_chars hex rev = true →
  scan_tail (num +:+ "-" +:+ rev +:+ " " +:+ rest) = Some (num, rev).
Proof.
  intros Hn0 Hr0 Hn Hr. unfold scan_tail.
  destruct (take_while_app digit num ("-" +:+ rev +:+ " " +:+ rest) Hn eq_refl)
    as [-> ->].
  change ("-" +:+ rev +:+ " " +:+ rest) with (String "-" (rev +:+ " " +:+ rest)).
  cbv iota beta. rewrite decide_True by done.
  destruct (take_while_app hex rev (" " +:+ rest) Hr eq_refl) as [-> ->].
  change (" " +:+ rest) with (String " " rest).
  cbv iota beta. by rewrite decide_True, !decide_False by done.
Qed.

Lemma scan_dir_complete d s :
  d ≠ "" → all_chars not_slash d = true →
  scan_dir (d +:+ "/" +:+ s) = Some (d +:+ "/", s).
Proof.
  intros Hd0 Hd. unfold scan_dir.
  destruct (take_while_app not_slash d ("/" +:+ s) Hd eq_refl) as [-> ->].
  change ("/" +:+ s) with (String "/" s).
  cbv iota beta. by rewrite decide_True, decide_False by done.
Qed.

(** Without digits at the start there is no number. *)
Lemma scan_tail_no_digit s : take_while digit s = "" → scan_tail s = None.
Proof.
  intros H. unfold scan_tail. rewrite (drop_while_none digit s H).
  destruct s as [|c s]; [done|].
  destruct (decide (c = "-"%char)); [|done].
  destruct (drop_while hex s) as [|c' s']; [done|].
  destruct (decide (c' = " "%char)); [|done].
  by rewrite decide_True.
Qed.

Lemma scan_Some_re_match s g :
  scan s = Some g → ∃ m, re_match label_pattern s = Some m ∧ groups m = g.
Proof.
  rewrite <- re_match_label. destruct (re_match label_pattern s) as [m|]; [|done].
  intros [= <-]. by exists m.
Qed.

Lemma scan_with_directory d num rev rest :
  d ≠ "" → all_chars not_slash d = true →
  num ≠ "" → rev ≠ "" →
  all_chars digit num = true → all_chars hex rev = true →
  scan (d +:+ "/" +:+ num +:+ "-" +:+ rev +:+ " " +:+ rest) =
    Some (Some (d +:+ "/"), Some num, Some rev).
Proof.
  intros. unfold scan.
  by rewrite scan_dir_complete, scan_tail_complete.
Qed.

(** X1: a command that is one path component without a slash, a slash,
    digits, a dash, lower-case hexadecimal digits, a space and anything
    else matches the label pattern, and the three groups are the component
    with its slash, the digits and the hexadecimal digits.  What the
    component is does not matter: the group after the first slash is the
    one that is found, also where the command starts with a label. *)
Theorem label_match_with_directory d num rev rest :
  d ≠ "" → all_chars not_slash d = true →
  num ≠ "" → rev ≠ "" →
  all_chars digit num = true → all_chars hex rev = true →
  match_groups (JStr (d +:+ "/" +:+ num +:+ "-" +:+ rev +:+ " " +:+ rest)) =
    Ok (Some (d +:+ "/"), Some num, Some rev).
Proof.
  intros Hd0 Hd Hn0 Hr0 Hn Hr.
  destruct (scan_Some_re_match _ _
    (scan_with_directory d num rev rest Hd0 Hd Hn0 Hr0 Hn Hr)) as (m & Hm & Hg).
  simpl. by rewrite Hm, Hg.
Qed.

Lemma label_match_with_directory_witness :
  ("003-abc123 < data" ≠ "" ∧ all_chars not_slash "003-abc123 < data" = true ∧
   "12" ≠ "" ∧ "ff" ≠ "" ∧
   all_chars digit "12" = true ∧ all_chars hex "ff" = true) ∧
  match_groups
    (JStr ("003-abc123 < data" +:+ "/" +:+ "12" +:+ "-" +:+ "ff" +:+ " " +:+ "x")) =
    Ok (Some ("003-abc123 < data" +:+ "/"), Some "12", Some "ff").
Proof.
  assert ("003-abc123 < data" ≠ "") as H1 by done.
  assert ("12" ≠ "") as H2 by done.
  assert ("ff" ≠ "") as H3 by done.
  split; [split_and!; [exact H1|reflexivity|exact H2|exact H3|reflexivity..]|].
  exact (label_match_with_directory "003-abc123 < data" "12" "ff" "x"
           H1 eq_refl H2 H3 eq_refl eq_refl).
Defined.

Lemma not_slash_label num rev rest :
  all_chars digit num = true → all_chars hex rev = true →
  all_chars not_slash rest = true →
  all_chars not_slash (num +:+ "-" +:+ rev +:+ " " +:+ rest) = true.
Proof.
  intros Hn Hr Hrest. rewrite !all_chars_app, !andb_true_iff.
  split_and!; [|done| |done|done].
  - by apply (all_chars_impl digit), Hn; apply digit_not_slash.
  - by apply (all_chars_impl hex), Hr; apply hex_not_slash.
Qed.

(** X2: a command without any slash that is digits, a dash, lower-case
    hexadecimal digits, a space and anything else matches the label pattern
    with no directory: the first group is [None]. *)
Theorem label_match_without_directory num rev rest :
  num ≠ "" → rev ≠ "" →
  all_chars digit num = true → all_chars hex rev = true →
  all_chars not_slash rest = true →
  match_groups (JStr (num +:+ "-" +:+ rev +:+ " " +:+ rest)) =
    Ok (None, Some num, Some rev).
Proof.
  intros Hn0 Hr0 Hn Hr Hrest.
  assert (scan (num +:+ "-" +:+ rev +:+ " " +:+ rest) =
          Some (None, Some num, Some rev)) as Hs.
  { unfold scan, scan_dir.
    rewrite drop_while_all by (by apply not_slash_label).
    by rewrite scan_tail_complete. }
  destruct (scan_Some_re_match _ _ Hs) as (m & Hm & Hg).
  simpl. by rewrite Hm, Hg.
Qed.

Lemma label_match_without_directory_witness :
  ("003" ≠ "" ∧ "abc123" ≠ "" ∧
   all_chars digit "003" = true ∧ all_chars hex "abc123" = true ∧
   all_chars not_slash "< in.diff" = true) ∧
  match_groups (JStr ("003" +:+ "-" +:+ "abc123" +:+ " " +:+ "< in.diff")) =
    Ok (None, Some "003", Some "abc123").
Proof.
  assert ("003" ≠ "") as H1 by done.
  assert ("abc123" ≠ "") as H2 by done.
  split; [split_and!; [exact H1|exact H2|reflexivity..]|].
  exact (label_match_without_directory "003" "abc123" "< in.diff"
           H1 H2 eq_refl eq_refl eq_refl).
Defined.

(** X3: the directory group of a match, where it is there, is the start of
    the command and is one path component: some characters that are not
    slashes, and one slash at its end. *)
Theorem label_directory_group cmd m dir :
  re_match label_pattern cmd = Some m →
  m !! 1 = Some dir →
  ∃ d rest,
    dir = d +:+ "/" ∧ d ≠ "" ∧ all_chars not_slash d = true ∧
    cmd = dir +:+ rest.
Proof.
  intros Hm%re_match_label_Some H1. unfold groups, scan in Hm. rewrite H1 in Hm.
  destruct (scan_dir cmd) as [[dir' s']|] eqn:Hd.
  - destruct (scan_tail s') as [[n r]|].
    + simplify_eq. apply scan_dir_inv in Hd as (-> & d & -> & ? & ?).
      by exists d, s'.
    + by destruct (scan_tail cmd) as [[n r]|].
  - by destruct (scan_tail cmd) as [[n r]|].
Qed.

Lemma label_directory_group_witness :
  let m : gmap nat string := <[3 := "abc123"]> (<[2 := "003"]> {[1 := "bin/"]}) in
  (re_match label_pattern "bin/003-abc123 < in > /dev/null" = Some m ∧
   m !! 1 = Some "bin/") ∧
  ∃ d rest,
    "bin/" = d +:+ "/" ∧ d ≠ "" ∧ all_chars not_slash d = true ∧
    "bin/003-abc123 < in > /dev/null" = "bin/" +:+ rest.
Proof.
  intros m.
  assert (re_match label_pattern "bin/003-abc123 < in > /dev/null" = Some m)
    as Hm by (vm_compute; reflexivity).
  split; [split; [exact Hm|reflexivity]|].
  exact (label_directory_group _ m "bin/" Hm eq_refl).
Defined.

(** ** Commands that the pattern rejects *)

Lemma take_while_none_app p s t :
  take_while p s = "" → take_while p t = "" → take_while p (s +:+ t) = "".
Proof.
  intros Hs Ht. destruct s as [|x s]; [done|]. by apply take_while_none.
Qed.

(** After the first slash there has to be a digit, and before it, if the
    directory is not to be used, too. *)
Lemma scan_no_digit_after_slash d t :
  all_chars not_slash d = true →
  take_while digit d = "" → take_while digit t = "" →
  scan (d +:+ "/" +:+ t) = None.
Proof.
  intros Hd Hd0 Ht.
  assert (scan_tail (d +:+ "/" +:+ t) = None) as Hwhole.
  { apply scan_tail_no_digit. by apply take_while_none_app. }
  unfold scan. rewrite Hwhole.
  destruct (decide (d = "")) as [->|Hne].
  - by rewrite str_app_nil_l.
  - by rewrite scan_dir_complete, scan_tail_no_digit.
Qed.

(** X4: where the directory of the executables has more than one path
    component (an absolute path, [./bin], [build/bin]) and neither the
    first component nor what follows its slash starts with a digit, no
    command that the Runner builds matches the label pattern, whatever the
    entry is, and the Transformer fails on a report that has such a
    command. *)
Theorem nested_directory_never_matches walk a d1 d2 entry :
  executables_dir a = d1 +:+ "/" +:+ d2 →
  all_chars not_slash d1 = true →
  take_while digit d1 = "" → take_while digit d2 = "" →
  re_match label_pattern (command_of a entry) = None ∧
  ∀ input rows row,
    getitem input "results" ≫= iter = Ok rows →
    row ∈ rows →
    getitem row "command" = Ok (JStr (command_of a entry)) →
    is_Err (transform walk input).
Proof.
  intros Hdir Hd1 Hd1' Hd2.
  assert (re_match label_pattern (command_of a entry) = None) as Hm.
  { apply re_match_label_None. unfold command_of.
    rewrite Hdir, !str_app_assoc.
    apply scan_no_digit_after_slash; [done..|].
    by apply take_while_none_app. }
  split; [done|]. intros input rows row Hrows Hin Hcmd.
  eapply transform_fails; [done..|].
  exists AttributeError. by eapply records_of_unmatched.
Qed.

Lemma nested_directory_never_matches_witness :
  (executables_dir (Args "in.diff" "/tmp/bin" "out.json") = "" +:+ "/" +:+ "tmp/bin" ∧
   all_chars not_slash "" = true ∧
   take_while digit "" = "" ∧ take_while digit "tmp/bin" = "") ∧
  re_match label_pattern
    (command_of (Args "in.diff" "/tmp/bin" "out.json") "003-abc123") = None ∧
  ∀ input rows row,
    getitem input "results" ≫= iter = Ok rows →
    row ∈ rows →
    getitem row "command" =
      Ok (JStr (command_of (Args "in.diff" "/tmp/bin" "out.json") "003-abc123")) →
    is_Err (transform [] input).
Proof.
  split; [split_and!; reflexivity|].
  exact (nested_directory_never_matches [] (Args "in.diff" "/tmp/bin" "out.json")
           "" "tmp/bin" "003-abc123" eq_refl eq_refl eq_refl eq_refl).
Defined.



(** ** From the Runner to the Transformer *)

(** X6: for a directory that is one path component and an entry named
    digits, a dash and lower-case hexadecimal digits, the command that the
    Runner builds is one that the Transformer accepts: an entry of the
    report with this command and a list of samples gives one record for
    each sample, and the [commit] field of each is the name of the
    executable. *)
Theorem runner_label_round_trip (c2m : gmap string string) a num rev d ts :
  executables_dir a ≠ "" →
  all_chars not_slash (executables_dir a) = true →
  num ≠ "" → rev ≠ "" →
  all_chars digit num = true → all_chars hex rev = true →
  Dict.get "command" d = Some (JStr (command_of a (num +:+ "-" +:+ rev))) →
  Dict.get "times" d = Some (JArr ts) →
  ∃ block,
    records_of c2m (JObj d) = Ok block ∧
    length block = length ts ∧
    ∀ r, r ∈ block → getitem r "commit" = Ok (JStr (num +:+ "-" +:+ rev)).
Proof.
  intros Hd0 Hd Hn0 Hr0 Hn Hr Hcmd Hts.
  destruct (scan_Some_re_match _ _
    (scan_with_directory (executables_dir a) num rev
       ("< " +:+ input_file a +:+ " > /dev/null") Hd0 Hd Hn0 Hr0 Hn Hr))
    as (m & Hm & Hg).
  assert (command_of a (num +:+ "-" +:+ rev) =
          executables_dir a +:+ "/" +:+ num +:+ "-" +:+ rev +:+ " " +:+
            "< " +:+ input_file a +:+ " > /dev/null") as Hc.
  { unfold command_of. by rewrite !str_app_assoc. }
  rewrite <- Hc in Hm. injection Hg as _ H2 H3.
  destruct (records_of_Ok c2m d _ m (JArr ts) ts Hcmd Hm Hts eq_refl)
    as (block & Hb & HF).
  exists block. split_and!; [done|symmetry; by eapply Forall2_length|].
  intros r Hin. destruct (Forall2_elem_of_r _ _ _ _ HF Hin) as (t & _ & Ht).
  apply output_row_fields in Ht as (_ & Hcommit & _).
  by rewrite H2, H3 in Hcommit.
Qed.

Lemma runner_label_round_trip_witness :
  let a := Args "in.diff" "bin" "out.json" in
  let d := [("command", JStr "bin/003-abc123 < in.diff > /dev/null");
            ("times", JArr [JFloat f1_0; JFloat f1_2])] in
  (executables_dir a ≠ "" ∧
   all_chars not_slash (executables_dir a) = true ∧
   "003" ≠ "" ∧ "abc123" ≠ "" ∧
   all_chars digit "003" = true ∧ all_chars hex "abc123" = true ∧
   Dict.get "command" d = Some (JStr (command_of a ("003" +:+ "-" +:+ "abc123"))) ∧
   Dict.get "times" d = Some (JArr [JFloat f1_0; JFloat f1_2])) ∧
  ∃ block,
    records_of ∅ (JObj d) = Ok block ∧
    length block = length [JFloat f1_0; JFloat f1_2] ∧
    ∀ r, r ∈ block → getitem r "commit" = Ok (JStr ("003" +:+ "-" +:+ "abc123")).
Proof.
  intros a d.
  assert (executables_dir a ≠ "") as H1 by done.
  assert ("003" ≠ "") as H2 by done.
  assert ("abc123" ≠ "") as H3 by done.
  split; [split_and!; [exact H1|reflexivity|exact H2|exact H3|reflexivity..]|].
  exact (runner_label_round_trip ∅ a "003" "abc123" d _
           H1 eq_refl H2 H3 eq_refl eq_refl eq_refl eq_refl).
Defined.

Lemma label_split_unique n1 r1 n2 r2 :
  all_chars digit n1 = true → all_chars digit n2 = true →
  n1 +:+ "-" +:+ r1 = n2 +:+ "-" +:+ r2 → n1 = n2 ∧ r1 = r2.
Proof.
  revert n2. induction n1 as [|x n1 IH]; intros [|y n2] H1 H2 Heq.
  - rewrite !str_app_nil_l in Heq. split; [done|].
    by apply (inj (String.app "-")) in Heq.
  - rewrite str_app_nil_l, str_app_cons in Heq.
    change ("-" +:+ r1) with (String "-" r1) in Heq. injection Heq as <- _.
    done.
  - rewrite str_app_nil_l, str_app_cons in Heq.
    change ("-" +:+ r2) with (String "-" r2) in Heq. injection Heq as -> _.
    done.
  - rewrite !str_app_cons in Heq. injection Heq as -> Heq.
    simpl in H1, H2. apply andb_true_iff in H1 as [_ H1].
    apply andb_true_iff in H2 as [_ H2].
    destruct (IH n2 H1 H2 Heq) as [-> ->]. done.
Qed.

(** X7: the [commit] field tells the labels apart: two commands that match
    the label pattern and give the same [f"{num}-{commit}"] have the same
    number and the same revision. *)
Theorem commit_field_injective cmd1 cmd2 m1 m2 :
  re_match label_pattern cmd1 = Some m1 →
  re_match label_pattern cmd2 = Some m2 →
  format (m1 !! 2) +:+ "-" +:+ format (m1 !! 3) =
    format (m2 !! 2) +:+ "-" +:+ format (m2 !! 3) →
  m1 !! 2 = m2 !! 2 ∧ m1 !! 3 = m2 !! 3.
Proof.
  intros (n1 & r1 & _ & -> & -> & _ & _ & Hn1 & _)%label_groups
         (n2 & r2 & _ & -> & -> & _ & _ & Hn2 & _)%label_groups Heq.
  simpl in Heq. by destruct (label_split_unique n1 r1 n2 r2 Hn1 Hn2 Heq) as [-> ->].
Qed.

Lemma commit_field_injective_witness :
  let m1 : gmap nat string := <[3 := "abc123"]> (<[2 := "003"]> {[1 := "bin/"]}) in
  let m2 : gmap nat string := <[3 := "abc123"]> (<[2 := "003"]> ∅) in
  (re_match label_pattern "bin/003-abc123 < in > /dev/null" = Some m1 ∧
   re_match label_pattern "003-abc123 x" = Some m2 ∧
   format (m1 !! 2) +:+ "-" +:+ format (m1 !! 3) =
     format (m2 !! 2) +:+ "-" +:+ format (m2 !! 3)) ∧
  m1 !! 2 = m2 !! 2 ∧ m1 !! 3 = m2 !! 3.
Proof.
  intros m1 m2.
  assert (re_match label_pattern "bin/003-abc123 < in > /dev/null" = Some m1)
    as H1 by (vm_compute; reflexivity).
  assert (re_match label_pattern "003-abc123 x" = Some m2)
    as H2 by (vm_compute; reflexivity).
  split; [split_and!; [exact H1|exact H2|reflexivity]|].
  exact (commit_field_injective _ _ m1 m2 H1 H2 eq_refl).
Defined.

(** ** The keys of a record *)

Section keys.
Implicit Types (d : Dict.dict) (k : string) (v : json).

Lemma keys_get d k : k ∈ Dict.keys d ↔ is_Some (Dict.get k d).
Proof.
  unfold Dict.keys. induction d as [|[k' v'] d IH]; simpl.
  - split; [by intros ?%elem_of_nil|by intros [? ?]].
  - rewrite elem_of_cons. destruct (decide (k' = k)) as [->|Hne].
    + split; [by eexists|by left].
    + rewrite <- IH. split; [by intros [->|?]|by right].
Qed.

Lemma keys_set_in d k v : k ∈ Dict.keys d → Dict.keys (Dict.set k v d) = Dict.keys d.
Proof.
  unfold Dict.keys. induction d as [|[k' v'] d IH]; simpl.
  - by intros ?%elem_of_nil.
  - destruct (decide (k' = k)) as [->|Hne]; [done|].
    intros [->|Hin]%elem_of_cons; [done|]. rewrite fmap_cons. f_equal.
    by apply IH.
Qed.

Lemma keys_set_notin d k v :
  k ∉ Dict.keys d → Dict.keys (Dict.set k v d) = (Dict.keys d ++ [k])%list.
Proof.
  unfold Dict.keys. induction d as [|[k' v'] d IH]; simpl; [done|].
  intros [Hne Hin]%not_elem_of_cons.
  rewrite decide_False by done. rewrite fmap_cons, IH by done. done.
Qed.

Lemma keys_del d k : Dict.keys (Dict.del k d) = filter (λ k', k' ≠ k) (Dict.keys d).
Proof.
  unfold Dict.keys, Dict.del. induction d as [|[k' v'] d IH]; [done|].
  rewrite fmap_cons, !filter_cons. simpl.
  destruct (decide (k' ≠ k)); [rewrite fmap_cons; f_equal|]; apply IH.
Qed.

Lemma elem_of_keys_set d k v k' :
  k' ∈ Dict.keys (Dict.set k v d) ↔ k' = k ∨ k' ∈ Dict.keys d.
Proof.
  destruct (decide (k ∈ Dict.keys d)) as [Hin|Hnotin].
  - rewrite keys_set_in by done. split; [by right|by intros [->|?]].
  - rewrite keys_set_notin, elem_of_app, list_elem_of_singleton by done.
    tauto.
Qed.

Lemma NoDup_keys_set d k v : NoDup (Dict.keys d) → NoDup (Dict.keys (Dict.set k v d)).
Proof.
  intros Hnd. destruct (decide (k ∈ Dict.keys d)) as [Hin|Hnotin].
  - by rewrite keys_set_in.
  - rewrite keys_set_notin by done. apply NoDup_app. split_and!; [done| |].
    + by intros k' Hk' ->%list_elem_of_singleton.
    + apply NoDup_singleton.
Qed.
End keys.

(** The record of a sample, as a dict. *)
Lemma output_row_inv (c2m : gmap string string) d num commit t r :
  output_row c2m (JObj d) num commit t = Ok r →
  is_Some (Dict.get "times" d) ∧
  r = JObj (Dict.set "time" t (Dict.del "times"
        (Dict.set "message" (JStr (get_message c2m commit))
        (Dict.set "commit" (JStr (format num +:+ "-" +:+ format commit)) d)))).
Proof.
  intros H.
  assert (is_Some (Dict.get "times" d)) as Hts.
  { unfold output_row in H. simpl in H.
    rewrite !get_set_ne in H by done. by destruct (Dict.get "times" d). }
  rewrite output_row_Ok in H by done. by injection H as <-.
Qed.

(** X8: the record of a sample has the fields of the entry without
    [times], and [commit], [message] and [time]: the script adds no other
    field and drops no other field. *)
Theorem record_keys (c2m : gmap string string) d num commit t r :
  output_row c2m (JObj d) num commit t = Ok r →
  ∃ d',
    r = JObj d' ∧
    ∀ k, k ∈ Dict.keys d' ↔
         (k ∈ Dict.keys d ∧ k ≠ "times") ∨ k ∈ ["commit"; "message"; "time"].
Proof.
  intros (_ & ->)%output_row_inv. eexists. split; [done|]. intros k.
  rewrite elem_of_keys_set, keys_del, list_elem_of_filter, !elem_of_keys_set.
  rewrite !elem_of_cons, elem_of_nil.
  destruct (decide (k = "times")) as [->|]; [|tauto].
  split; [intros [?|[? ?]]; done|].
  intros [[_ ?]|[?|[?|[?|[]]]]]; done.
Qed.

Lemma record_keys_witness :
  let d := [("command", JStr "bin/003-abc123 < in > /dev/null");
            ("mean", JFloat f1_1); ("times", JArr [JFloat f1_0; JFloat f1_2])] in
  let r := JObj [("command", JStr "bin/003-abc123 < in > /dev/null");
                 ("mean", JFloat f1_1); ("commit", JStr "003-abc123");
                 ("message", JStr ""); ("time", JFloat f1_0)] in
  output_row ∅ (JObj d) (Some "003") (Some "abc123") (JFloat f1_0) = Ok r ∧
  ∃ d',
    r = JObj d' ∧
    ∀ k, k ∈ Dict.keys d' ↔
         (k ∈ Dict.keys d ∧ k ≠ "times") ∨ k ∈ ["commit"; "message"; "time"].
Proof.
  intros d r.
  assert (output_row ∅ (JObj d) (Some "003") (Some "abc123") (JFloat f1_0) = Ok r)
    as H by reflexivity.
  split; [exact H|]. exact (record_keys ∅ d _ _ _ r H).
Defined.

(** X9: for an entry that has no field named [commit], [message] or
    [time], the fields of the record are those of the entry in their
    order, without [times], and then [commit], [message] and [time], in
    this order: this is the order in which [json.dump] writes them. *)
Theorem record_key_order (c2m : gmap string string) d num commit t r :
  output_row c2m (JObj d) num commit t = Ok r →
  "commit" ∉ Dict.keys d → "message" ∉ Dict.keys d → "time" ∉ Dict.keys d →
  ∃ d',
    r = JObj d' ∧
    Dict.keys d' =
      (filter (λ k, k ≠ "times") (Dict.keys d) ++
         ["commit"; "message"; "time"])%list.
Proof.
  intros (_ & ->)%output_row_inv Hc Hm Ht. eexists. split; [done|].
  rewrite keys_set_notin.
  2:{ rewrite keys_del, list_elem_of_filter, !elem_of_keys_set.
      intros [_ [?|[?|?]]]; done. }
  rewrite keys_del, keys_set_notin.
  2:{ rewrite elem_of_keys_set. intros [?|?]; done. }
  rewrite keys_set_notin by done.
  rewrite !filter_app, !filter_cons, !filter_nil. simpl.
  by rewrite <- !(assoc_L (++)).
Qed.

Lemma record_key_order_witness :
  let d := [("command", JStr "bin/003-abc123 < in > /dev/null");
            ("times", JArr [JFloat f1_0; JFloat f1_2]); ("mean", JFloat f1_1)] in
  let r := JObj [("command", JStr "bin/003-abc123 < in > /dev/null");
                 ("mean", JFloat f1_1); ("commit", JStr "003-abc123");
                 ("message", JStr ""); ("time", JFloat f1_0)] in
  (output_row ∅ (JObj d) (Some "003") (Some "abc123") (JFloat f1_0) = Ok r ∧
   ("commit" ∉ Dict.keys d) ∧ ("message" ∉ Dict.keys d) ∧
   ("time" ∉ Dict.keys d)) ∧
  ∃ d',
    r = JObj d' ∧
    Dict.keys d' =
      (filter (λ k, k ≠ "times") (Dict.keys d) ++
         ["commit"; "message"; "time"])%list.
Proof.
  intros d r.
  assert (output_row ∅ (JObj d) (Some "003") (Some "abc123") (JFloat f1_0) = Ok r)
    as H by reflexivity.
  assert ("commit" ∉ Dict.keys d) as Hc.
  { apply (bool_decide_unpack _). vm_compute. exact I. }
  assert ("message" ∉ Dict.keys d) as Hm.
  { apply (bool_decide_unpack _). vm_compute. exact I. }
  assert ("time" ∉ Dict.keys d) as Ht.
  { apply (bool_decide_unpack _). vm_compute. exact I. }
  split; [split_and!; [exact H|exact Hc|exact Hm|exact Ht]|].
  exact (record_key_order ∅ d _ _ _ r H Hc Hm Ht).
Defined.

(** X10: a record is a dict again: where no key of the entry occurs twice,
    no key of the record does. *)
Theorem record_keys_NoDup (c2m : gmap string string) d num commit t d' :
  NoDup (Dict.keys d) →
  output_row c2m (JObj d) num commit t = Ok (JObj d') →
  NoDup (Dict.keys d').
Proof.
  intros Hnd (_ & [= ->])%output_row_inv.
  apply NoDup_keys_set. rewrite keys_del. apply NoDup_filter.
  by do 2 apply NoDup_keys_set.
Qed.

Lemma record_keys_NoDup_witness :
  let d := [("command", JStr "bin/003-abc123 < in > /dev/null");
            ("time", JInt 7); ("times", JArr [JFloat f1_0; JFloat f1_2])] in
  let d' := [("command", JStr "bin/003-abc123 < in > /dev/null");
             ("time", JFloat f1_0); ("commit", JStr "003-abc123");
             ("message", JStr "")] in
  (NoDup (Dict.keys d) ∧
   output_row ∅ (JObj d) (Some "003") (Some "abc123") (JFloat f1_0) = Ok (JObj d')) ∧
  NoDup (Dict.keys d').
Proof.
  intros d d'.
  assert (NoDup (Dict.keys d)) as Hnd.
  { apply (bool_decide_unpack _). vm_compute. exact I. }
  assert (output_row ∅ (JObj d) (Some "003") (Some "abc123") (JFloat f1_0) = Ok (JObj d'))
    as H by reflexivity.
  split; [split; [exact Hnd|exact H]|].
  exact (record_keys_NoDup ∅ d _ _ _ d' Hnd H).
Defined.

(** ** When the Transformer succeeds, and how it fails *)

Section runs.
Context (c2m : gmap string string).

(** The entries that give records. *)
Lemma records_of_is_Ok row :
  (∃ block, records_of c2m row = Ok block) ↔
  ∃ d cmd m tv ts,
    row = JObj d ∧
    Dict.get "command" d = Some (JStr cmd) ∧
    re_match label_pattern cmd = Some m ∧
    Dict.get "times" d = Some tv ∧
    iter tv = Ok ts.
Proof.
  split.
  - intros [block (d & cmd & m & tv & ts & ? & ? & ? & ? & ? & _)%records_of_inv].
    by exists d, cmd, m, tv, ts.
  - intros (d & cmd & m & tv & ts & -> & Hcmd & Hm & Htv & Hts).
    destruct (records_of_Ok c2m d cmd m tv ts) as (block & Hb & _); [done..|].
    by exists block.
Qed.

Lemma for_rows_app rows output :
  for_rows c2m rows output = (output ++.) <$> for_rows c2m rows [].
Proof. by rewrite <- for_rows_app_acc, app_nil_r. Qed.

Lemma for_rows_is_Ok rows :
  (∃ output, for_rows c2m rows [] = Ok output) ↔
  Forall (λ row, ∃ block, records_of c2m row = Ok block) rows.
Proof.
  split.
  - intros [output (blocks & HF & _)%for_rows_Ok].
    induction HF; constructor; eauto.
  - induction 1 as [|row rows [block Hb] _ [output IH]]; [by exists []|].
    exists (block ++ output)%list. simpl. rewrite row_body_app, Hb. simpl.
    by rewrite for_rows_app, IH.
Qed.

(** The exception of the first entry that fails is the one of the loop. *)
Lemma for_rows_first_error good bad rest e output :
  Forall (λ row, ∃ block, records_of c2m row = Ok block) good →
  records_of c2m bad = Err e →
  for_rows c2m (good ++ bad :: rest) output = Err e.
Proof.
  intros Hgood Hbad. revert output.
  induction Hgood as [|row good [block Hb] _ IH]; intros output; simpl.
  - by rewrite row_body_app, Hbad.
  - rewrite row_body_app, Hb. simpl. apply IH.
Qed.

(** The loop over two lists of entries, one after the other. *)
Lemma for_rows_app_rows rows1 rows2 output :
  for_rows c2m (rows1 ++ rows2) output =
    for_rows c2m rows1 output ≫= for_rows c2m rows2.
Proof.
  revert output. induction rows1 as [|row rows1 IH]; intros output; [done|].
  simpl. destruct (row_body c2m row output) as [output'|]; simpl; [|done].
  apply IH.
Qed.
End runs.

(** X11: the Transformer hands out an array exactly when [results] can be
    run through and every entry is an object with a string as [command]
    that matches the label pattern and with [times] that can be run
    through; nothing else, and nothing about the log, decides whether it
    succeeds. *)
Theorem transform_succeeds_iff walk input :
  (∃ output, transform walk input = Ok output) ↔
  ∃ rows,
    getitem input "results" ≫= iter = Ok rows ∧
    Forall (λ row, ∃ d cmd m tv ts,
      row = JObj d ∧
      Dict.get "command" d = Some (JStr cmd) ∧
      re_match label_pattern cmd = Some m ∧
      Dict.get "times" d = Some tv ∧
      iter tv = Ok ts) rows.
Proof.
  split.
  - intros [output H]. destruct (transform_inv walk input output H) as [rows Hrows].
    exists rows. split; [done|].
    rewrite (transform_rows walk input rows Hrows) in H.
    assert (∃ output, for_rows (commit2message walk) rows [] = Ok output) as HF
      by (by exists output).
    apply for_rows_is_Ok in HF. eapply Forall_impl; [exact HF|].
    intros row. apply records_of_is_Ok.
  - intros (rows & Hrows & HF).
    rewrite (transform_rows walk input rows Hrows).
    apply for_rows_is_Ok. eapply Forall_impl; [exact HF|].
    intros row. apply records_of_is_Ok.
Qed.

(** X12: the Transformer stops at the first entry that fails: where the
    entries before it give their records, the exception of this entry is
    the exception of the script, whatever the entries after it are. *)
Theorem transform_first_error walk input good bad rest e :
  getitem input "results" ≫= iter = Ok (good ++ bad :: rest)%list →
  Forall (λ row, ∃ block, records_of (commit2message walk) row = Ok block) good →
  records_of (commit2message walk) bad = Err e →
  transform walk input = Err e.
Proof.
  intros Hrows Hgood Hbad. rewrite (transform_rows walk input _ Hrows).
  by apply for_rows_first_error.
Qed.

Lemma transform_first_error_witness :
  let good := JObj [("command", JStr "bin/003-abc123 ...");
                    ("times", JArr [JFloat f1_0])] in
  let bad := JObj [("command", JStr "bin/004-def456 ...")] in
  let rest := [JObj [("command", JStr "mytool"); ("times", JArr [])]; JNull] in
  let input := JObj [("results", JArr ([good] ++ bad :: rest))] in
  (getitem input "results" ≫= iter = Ok ([good] ++ bad :: rest)%list ∧
   Forall (λ row, ∃ block, records_of (commit2message []) row = Ok block) [good] ∧
   records_of (commit2message []) bad = Err KeyError) ∧
  transform [] input = Err KeyError.
Proof.
  intros good bad rest input.
  assert (Forall (λ row, ∃ block, records_of (commit2message []) row = Ok block)
            [good]) as Hgood.
  { constructor; [|constructor]. eexists. vm_compute. reflexivity. }
  assert (records_of (commit2message []) bad = Err KeyError) as Hbad
    by (vm_compute; reflexivity).
  split; [split_and!; [reflexivity|exact Hgood|exact Hbad]|].
  exact (transform_first_error [] input [good] bad rest KeyError
           eq_refl Hgood Hbad).
Defined.

(** X13: the report of two lists of entries, one after the other, gives
    the records of the first list and then those of the second; it fails
    where the first list fails, with its exception, and else where the
    second does. *)
Theorem transform_app walk rows1 rows2 :
  transform walk (JObj [("results", JArr (rows1 ++ rows2))]) =
    (output1 ← transform walk (JObj [("results", JArr rows1)]);
     output2 ← transform walk (JObj [("results", JArr rows2)]);
     Ok (output1 ++ output2)%list).
Proof.
  assert (∀ rows, transform walk (JObj [("results", JArr rows)]) =
                    for_rows (commit2message walk) rows []) as Hrun.
  { intros rows. by apply transform_rows. }
  rewrite !Hrun.
  rewrite for_rows_app_rows.
  destruct (for_rows (commit2message walk) rows1 []) as [output1|]; [|done].
  simpl. rewrite for_rows_app.
  by destruct (for_rows (commit2message walk) rows2 []).
Qed.

Lemma classic_row row : (∀ d, row ≠ JObj d) ∨ (∃ d, row = JObj d).
Proof. destruct row; try (by left); right; by eexists. Qed.

(** The three ways in which an entry fails. *)
Section failures.
Context (c2m : gmap string string).

Lemma records_of_AttributeError row :
  (∃ cmd, getitem row "command" = Ok (JStr cmd) ∧
     re_match label_pattern cmd = None) →
  records_of c2m row = Err AttributeError.
Proof. intros (cmd & Hcmd & Hm). by eapply records_of_unmatched. Qed.

Lemma records_of_KeyError row :
  (∃ d, row = JObj d ∧
     (Dict.get "command" d = None ∨
      ∃ cmd m, Dict.get "command" d = Some (JStr cmd) ∧
        re_match label_pattern cmd = Some m ∧ Dict.get "times" d = None)) →
  records_of c2m row = Err KeyError.
Proof.
  intros (d & -> & [Hcmd|(cmd & m & Hcmd & Hm & Hts)]);
    unfold records_of, row_body; simpl; rewrite Hcmd; [done|].
  simpl. rewrite Hm. simpl. by rewrite Hts.
Qed.

Lemma records_of_TypeError row :
  (∀ d, row ≠ JObj d) ∨
  (∃ v, getitem row "command" = Ok v ∧ ∀ cmd, v ≠ JStr cmd) ∨
  (∃ cmd m tv, getitem row "command" = Ok (JStr cmd) ∧
     re_match label_pattern cmd = Some m ∧
     getitem row "times" = Ok tv ∧ iter tv = Err TypeError) →
  records_of c2m row = Err TypeError.
Proof.
  unfold records_of, row_body.
  intros [Hrow|[(v & Hcmd & Hv)|(cmd & m & tv & Hcmd & Hm & Htv & Hts)]].
  - destruct row; try done. by destruct (Hrow d).
  - rewrite Hcmd. simpl. destruct v; try done. by destruct (Hv s).
  - rewrite Hcmd. simpl. rewrite Hm. simpl. rewrite Htv. simpl. by rewrite Hts.
Qed.

(** The outcome of an entry, case by case. *)
Lemma records_of_cases row :
  (∃ block, records_of c2m row = Ok block) ∨
  (records_of c2m row = Err TypeError ∧
     ((∀ d, row ≠ JObj d) ∨
      (∃ v, getitem row "command" = Ok v ∧ ∀ cmd, v ≠ JStr cmd) ∨
      (∃ cmd m tv, getitem row "command" = Ok (JStr cmd) ∧
         re_match label_pattern cmd = Some m ∧
         getitem row "times" = Ok tv ∧ iter tv = Err TypeError))) ∨
  (records_of c2m row = Err KeyError ∧
     ∃ d, row = JObj d ∧
       (Dict.get "command" d = None ∨
        ∃ cmd m, Dict.get "command" d = Some (JStr cmd) ∧
          re_match label_pattern cmd = Some m ∧ Dict.get "times" d = None)) ∨
  (records_of c2m row = Err AttributeError ∧
     ∃ cmd, getitem row "command" = Ok (JStr cmd) ∧
       re_match label_pattern cmd = None).
Proof.
  assert (∀ P : Prop, P → (P → records_of c2m row = Err TypeError) →
            records_of c2m row = Err TypeError ∧ P) as type_error by auto.
  assert (∀ P : Prop, P → (P → records_of c2m row = Err KeyError) →
            records_of c2m row = Err KeyError ∧ P) as key_error by auto.
  assert (∀ P : Prop, P → (P → records_of c2m row = Err AttributeError) →
            records_of c2m row = Err AttributeError ∧ P) as attr_error by auto.
  destruct (classic_row row) as [Hrow|[d ->]].
  { right; left. apply type_error; [by left|apply records_of_TypeError]. }
  destruct (Dict.get "command" d) as [v|] eqn:Hcmd.
  2:{ right; right; left. apply key_error; [|apply records_of_KeyError].
      exists d. by split; [|left]. }
  assert ((∃ cmd, v = JStr cmd) ∨ (∀ cmd, v ≠ JStr cmd)) as [[cmd ->]|Hv].
  { destruct v; try (by right); left; by eexists. }
  2:{ right; left. apply type_error; [|apply records_of_TypeError].
      right; left. exists v. simpl. by rewrite Hcmd. }
  destruct (re_match label_pattern cmd) as [m|] eqn:Hm.
  2:{ right; right; right. apply attr_error; [|apply records_of_AttributeError].
      exists cmd. simpl. by rewrite Hcmd. }
  destruct (Dict.get "times" d) as [tv|] eqn:Htv.
  2:{ right; right; left. apply key_error; [|apply records_of_KeyError].
      exists d. split; [done|]. right. by exists cmd, m. }
  destruct (iter tv) as [ts|e] eqn:Hts.
  - left. destruct (records_of_Ok c2m d cmd m tv ts) as (block & Hb & _);
      [done..|]. by exists block.
  - right; left. apply type_error; [|apply records_of_TypeError].
    assert (e = TypeError) as ->.
    { clear Htv. destruct tv; simpl in Hts; congruence. }
    right; right. exists cmd, m, tv. simpl. by rewrite Hcmd, Htv.
Qed.
End failures.

(** X14: what each exception of an entry means.  [AttributeError] comes
    exactly from a string [command] that does not match the label pattern,
    and [KeyError] exactly from an object without [command], or with a
    matching [command] and without [times]; the statements on the copy,
    [del output_row["times"]] among them, never fail. *)
Theorem entry_exception_causes (c2m : gmap string string) row :
  (records_of c2m row = Err AttributeError ↔
     ∃ cmd, getitem row "command" = Ok (JStr cmd) ∧
       re_match label_pattern cmd = None) ∧
  (records_of c2m row = Err KeyError ↔
     ∃ d, row = JObj d ∧
       (Dict.get "command" d = None ∨
        ∃ cmd m, Dict.get "command" d = Some (JStr cmd) ∧
          re_match label_pattern cmd = Some m ∧ Dict.get "times" d = None)) ∧
  (records_of c2m row = Err TypeError ↔
     (∀ d, row ≠ JObj d) ∨
     (∃ v, getitem row "command" = Ok v ∧ ∀ cmd, v ≠ JStr cmd) ∨
     (∃ cmd m tv, getitem row "command" = Ok (JStr cmd) ∧
        re_match label_pattern cmd = Some m ∧
        getitem row "times" = Ok tv ∧ iter tv = Err TypeError)) ∧
  (∀ returncode, records_of c2m row ≠ Err (CalledProcessError returncode)).
Proof.
  split_and!.
  - split; [|apply records_of_AttributeError].
    intros H. destruct (records_of_cases c2m row)
      as [[block Hb]|[[He _]|[[He _]|[_ Hc]]]]; [congruence..|done].
  - split; [|apply records_of_KeyError].
    intros H. destruct (records_of_cases c2m row)
      as [[block Hb]|[[He _]|[[_ Hc]|[He _]]]]; [congruence..|done|congruence].
  - split; [|apply records_of_TypeError].
    intros H. destruct (records_of_cases c2m row)
      as [[block Hb]|[[_ Hc]|[[He _]|[He _]]]]; [congruence|done|congruence..].
  - intros returncode H. destruct (records_of_cases c2m row)
      as [[block Hb]|[[He _]|[[He _]|[He _]]]]; congruence.
Qed.

(** ** The log and the rest of the output *)

Lemma fmap_Err {A B} (f : A → B) (m : result A) e :
  f <$> m = Err e ↔ m = Err e.
Proof. destruct m; simpl; split; congruence. Qed.

Lemma Forall2_concat {A B} (P : A → B → Prop) ls ks :
  Forall2 (Forall2 P) ls ks → Forall2 P (concat ls) (concat ks).
Proof. induction 1; simpl; [constructor|by apply Forall2_app]. Qed.

Section two_logs.
Context (c2m c2m' : gmap string string).

(** An entry fails in the same way whatever the log is. *)
Lemma records_of_Err_log row e :
  records_of c2m row = Err e → records_of c2m' row = Err e.
Proof.
  intros H. destruct (records_of_cases c2m row)
    as [[block Hb]|[[He Hc]|[[He Hc]|[He Hc]]]]; [congruence|..].
  - rewrite He in H. injection H as <-. by apply records_of_TypeError.
  - rewrite He in H. injection H as <-. by apply records_of_KeyError.
  - rewrite He in H. injection H as <-. by apply records_of_AttributeError.
Qed.

Lemma records_of_Ok_log row block :
  records_of c2m row = Ok block → ∃ block', records_of c2m' row = Ok block'.
Proof.
  intros H. apply records_of_is_Ok. apply (records_of_is_Ok c2m). by exists block.
Qed.

Lemma for_rows_Err_log rows e :
  for_rows c2m rows [] = Err e → for_rows c2m' rows [] = Err e.
Proof.
  induction rows as [|row rows IH]; [done|]. simpl.
  rewrite !row_body_app.
  destruct (records_of c2m row) as [block|e'] eqn:Hb; simpl.
  - destruct (records_of_Ok_log row block Hb) as [block' ->]. simpl.
    rewrite (for_rows_app c2m), (for_rows_app c2m'), !fmap_Err.
    apply IH.
  - intros [= ->]. by rewrite (records_of_Err_log row e Hb).
Qed.

(** The records of a sample under two logs. *)
Lemma output_row_log d num commit t r r' :
  output_row c2m (JObj d) num commit t = Ok r →
  output_row c2m' (JObj d) num commit t = Ok r' →
  ∀ k, k ≠ "message" → getitem r k = getitem r' k.
Proof.
  intros (_ & ->)%output_row_inv (_ & ->)%output_row_inv k Hk. simpl.
  destruct (decide (k = "time")) as [->|]; [by rewrite !get_set_eq|].
  rewrite !(get_set_ne "time") by done.
  destruct (decide (k = "times")) as [->|]; [by rewrite !get_del_eq|].
  rewrite !(get_del_ne "times") by done.
  by rewrite !(get_set_ne "message") by done.
Qed.

Lemma records_of_log row block block' :
  records_of c2m row = Ok block → records_of c2m' row = Ok block' →
  Forall2 (λ r r', ∀ k, k ≠ "message" → getitem r k = getitem r' k) block block'.
Proof.
  intros (d & cmd & m & tv & ts & -> & Hcmd & Hm & Htv & Hts & HF)%records_of_inv
         (d' & cmd' & m' & tv' & ts' & [= <-] & Hcmd' & Hm' & Htv' & Hts' & HF')%records_of_inv.
  assert (cmd' = cmd) as -> by congruence.
  assert (m' = m) as -> by congruence.
  assert (tv' = tv) as -> by congruence.
  assert (ts' = ts) as -> by congruence.
  clear Hcmd Hm Htv Hts Hcmd' Hm' Htv' Hts'. revert block' HF'.
  induction HF as [|t r ts block Hr _ IH]; intros block' HF'; inv HF'.
  - constructor.
  - constructor; [by eapply output_row_log|by apply IH].
Qed.
End two_logs.

(** X15: the log decides the [message] fields and nothing else.  Under two
    logs the Transformer fails on the same reports, with the same
    exception, and where it succeeds the two outputs have the same number
    of records, which agree on every field but [message]. *)
Theorem transform_log_independent walk walk' input :
  (∀ e, transform walk input = Err e ↔ transform walk' input = Err e) ∧
  (∀ output output',
     transform walk input = Ok output →
     transform walk' input = Ok output' →
     Forall2 (λ r r', ∀ k, k ≠ "message" → getitem r k = getitem r' k)
       output output').
Proof.
  split.
  - assert (∀ w w' e, transform w input = Err e → transform w' input = Err e)
      as Hone; [|by split; apply Hone].
    intros w w' e. unfold transform.
    destruct (getitem input "results") as [results|]; [|done]. simpl.
    destruct (iter results) as [rows|]; [|done]. simpl.
    apply for_rows_Err_log.
  - intros output output' H H'.
    destruct (transform_inv walk input output H) as [rows Hrows].
    rewrite (transform_rows walk input rows Hrows) in H.
    rewrite (transform_rows walk' input rows Hrows) in H'.
    apply for_rows_Ok in H as (blocks & HF & ->).
    apply for_rows_Ok in H' as (blocks' & HF' & ->).
    apply Forall2_concat. clear Hrows. revert blocks' HF'.
    induction HF as [|row block rows blocks Hb _ IH]; intros blocks' HF';
      inv HF'.
    + constructor.
    + constructor; [by eapply records_of_log|by apply IH].
Qed.



(** ** The log as a dict *)

Lemma commit2message_app walk walk' h :
  h ∉ id_hex <$> walk' →
  commit2message (walk ++ walk') !! h = commit2message walk !! h.
Proof.
  induction walk' as [|c walk' IH] using rev_ind; [by rewrite app_nil_r|].
  rewrite fmap_app, not_elem_of_app. simpl.
  rewrite list_elem_of_singleton. intros [Hw Hc].
  rewrite (assoc_L (++)), commit2message_snoc, lookup_insert_ne by done.
  by apply IH.
Qed.

(** X17: where the walk yields two commits with one id, the dict
    comprehension keeps the message of the later one: the message of a
    commit is recorded under its id if no commit after it has this id. *)
Theorem commit2message_last_wins walk c walk' :
  id_hex c ∉ id_hex <$> walk' →
  commit2message (walk ++ c :: walk') !! id_hex c = Some (message c).
Proof.
  intros Hlast. rewrite (cons_middle c), (assoc_L (++)).
  rewrite commit2message_app by done.
  by rewrite commit2message_snoc, lookup_insert_eq.
Qed.

Lemma commit2message_last_wins_witness :
  (id_hex (Commit "abc123" "second") ∉
     id_hex <$> [Commit "0d5e" "Initial commit"]) ∧
  commit2message
    ([Commit "abc123" "first"] ++
       Commit "abc123" "second" :: [Commit "0d5e" "Initial commit"])
    !! id_hex (Commit "abc123" "second") =
  Some (message (Commit "abc123" "second")).
Proof.
  assert (id_hex (Commit "abc123" "second") ∉
            id_hex <$> [Commit "0d5e" "Initial commit"]) as H.
  { apply (bool_decide_unpack _). vm_compute. exact I. }
  split; [exact H|].
  exact (commit2message_last_wins [Commit "abc123" "first"]
           (Commit "abc123" "second") [Commit "0d5e" "Initial commit"] H).
Defined.

(** ** The Runner: further properties *)

(** X18: the order in which [os.listdir] returns the entries does not
    matter: two listings of the same entries give the same invocation and
    the same end of the script. *)
Theorem runner_listing_order_irrelevant tool a listdir listdir' :
  listdir ≡ₚ listdir' →
  hyperfine_args a listdir = hyperfine_args a listdir' ∧
  runner tool a listdir = runner tool a listdir'.
Proof.
  intros Hperm.
  assert (sorted listdir = sorted listdir') as Hsorted.
  { apply (Sorted_unique String.le).
    - apply (Sorted_merge_sort _).
    - apply (Sorted_merge_sort _).
    - unfold sorted. by rewrite !merge_sort_Permutation. }
  assert (hyperfine_args a listdir = hyperfine_args a listdir') as Hargs.
  { unfold hyperfine_args. by rewrite Hsorted. }
  split; [done|]. unfold runner. by rewrite Hargs.
Qed.

Lemma runner_listing_order_irrelevant_witness :
  ["004-0d5e"; "003-abc123"; "010-ff"] ≡ₚ ["010-ff"; "004-0d5e"; "003-abc123"] ∧
  hyperfine_args (Args "in.diff" "bin" "out.json")
    ["004-0d5e"; "003-abc123"; "010-ff"] =
  hyperfine_args (Args "in.diff" "bin" "out.json")
    ["010-ff"; "004-0d5e"; "003-abc123"] ∧
  runner (λ _, 0%Z) (Args "in.diff" "bin" "out.json")
    ["004-0d5e"; "003-abc123"; "010-ff"] =
  runner (λ _, 0%Z) (Args "in.diff" "bin" "out.json")
    ["010-ff"; "004-0d5e"; "003-abc123"].
Proof.
  assert (["004-0d5e"; "003-abc123"; "010-ff"] ≡ₚ
          ["010-ff"; "004-0d5e"; "003-abc123"]) as H.
  { apply (bool_decide_unpack _). vm_compute. exact I. }
  split; [exact H|].
  exact (runner_listing_order_irrelevant (λ _, 0%Z)
           (Args "in.diff" "bin" "out.json") _ _ H).
Defined.


(** ** What [times] may be *)


